(** * Slot-Swap: the swap workflow of the pages over the relations of the migration

    The pages [Dashboard], [Marketplace] and [Requests] hold no state of
    their own beyond what they read: every handler is a short sequence
    of awaited calls to the hosted store, each call answering with an
    [error] that is either null or not.  The development embeds

    - the relations [events] and [swap_requests] of the migration, with
      their primary keys, CHECK constraints and the foreign keys
      [ON DELETE CASCADE];
    - the row policies of the migration, evaluated for the user signed
      in on the client that makes the call: a row an UPDATE or DELETE
      policy hides is passed over without an error, a new row the
      policy does not admit is an error;
    - the calls the pages make, as a small instruction set;
    - each handler as a program over these calls, in the order and with
      the early returns of the source.

    What lies outside the repository is kept as a parameter, the
    [Backend]: which calls the hosted store turns down for reasons of
    its own (transport, an expired session) and which identifiers
    [gen_random_uuid()] draws.  A call the backend turns down answers
    with an error and writes nothing.  Identifiers are strings, as the
    pages hold them.  The queries that only read are functions of the
    store and of the reader: a read that fails shows a notification and
    writes nothing.  The columns [created_at] and [updated_at] and the
    [profiles] relation only feed the presentation and are left out. *)

From stdpp Require Import gmap strings list fin_maps sorting.
From Stdlib Require Import ZArith.

Local Open Scope string_scope.

(** ** The relations *)

(** [CREATE TABLE public.events]: the primary key [id] is the key of the
    table below; timestamps are instants. *)
Module events.

Record row := Row {
  user_id : string;
  title : string;
  start_time : Z;
  end_time : Z;
  status : string
}.

(** [CHECK (status IN ('BUSY', 'SWAPPABLE', 'SWAP_PENDING'))] *)
Definition check (r : row) : bool :=
  bool_decide (status r ∈ ["BUSY"; "SWAPPABLE"; "SWAP_PENDING"]).

End events.

(** [CREATE TABLE public.swap_requests] *)
Module swap_requests.

Record row := Row {
  requester_id : string;
  requester_event_id : string;
  recipient_id : string;
  recipient_event_id : string;
  status : string
}.

(** [CHECK (status IN ('PENDING', 'ACCEPTED', 'REJECTED'))] *)
Definition check (r : row) : bool :=
  bool_decide (status r ∈ ["PENDING"; "ACCEPTED"; "REJECTED"]).

(** The two columns that are [REFERENCES public.events(id)]. *)
Definition references (eventId : string) (r : row) : Prop :=
  requester_event_id r = eventId ∨ recipient_event_id r = eventId.

#[export] Instance references_dec eventId r : Decision (references eventId r).
Proof. unfold references. apply _. Defined.

End swap_requests.

Record Database := {
  tbl_events : gmap string events.row;
  tbl_swap_requests : gmap string swap_requests.row
}.

Definition empty_db : Database :=
  {| tbl_events := ∅; tbl_swap_requests := ∅ |}.

(** ** The row policies of the migration *)

(** The expression of each [CREATE POLICY] on [events] and
    [swap_requests], with [auth.uid()] as the first argument. *)
Module policy.

(** "Users can view their own events" *)
Definition events_select_own (uid : string) (r : events.row) : bool :=
  bool_decide (uid = events.user_id r).

(** "Users can view swappable events from others" *)
Definition events_select_swappable (uid : string) (r : events.row) : bool :=
  bool_decide (events.status r = "SWAPPABLE").

(** "Users can create their own events" *)
Definition events_insert (uid : string) (r : events.row) : bool :=
  bool_decide (uid = events.user_id r).

(** "Users can update their own events" *)
Definition events_update (uid : string) (r : events.row) : bool :=
  bool_decide (uid = events.user_id r).

(** "Users can delete their own events" *)
Definition events_delete (uid : string) (r : events.row) : bool :=
  bool_decide (uid = events.user_id r).

(** "Users can view their own swap requests" *)
Definition swap_requests_select (uid : string) (r : swap_requests.row) : bool :=
  bool_decide (uid = swap_requests.requester_id r)
  || bool_decide (uid = swap_requests.recipient_id r).

(** "Users can create swap requests" *)
Definition swap_requests_insert (uid : string) (r : swap_requests.row) : bool :=
  bool_decide (uid = swap_requests.requester_id r).

(** "Recipients can update swap requests" *)
Definition swap_requests_update (uid : string) (r : swap_requests.row) : bool :=
  bool_decide (uid = swap_requests.recipient_id r).

End policy.

(** ** The calls of the pages *)

(** The object handed to [.update({...})] on [events]: the columns it
    names are overwritten, the others kept. *)
Record events_patch := {
  set_user_id : option string;
  set_status : option string
}.

Definition patch_event (p : events_patch) (r : events.row) : events.row :=
  {| events.user_id := default (events.user_id r) (set_user_id p);
     events.title := events.title r;
     events.start_time := events.start_time r;
     events.end_time := events.end_time r;
     events.status := default (events.status r) (set_status p) |}.

Definition set_request_status (s : string) (r : swap_requests.row)
  : swap_requests.row :=
  {| swap_requests.requester_id := swap_requests.requester_id r;
     swap_requests.requester_event_id := swap_requests.requester_event_id r;
     swap_requests.recipient_id := swap_requests.recipient_id r;
     swap_requests.recipient_event_id := swap_requests.recipient_event_id r;
     swap_requests.status := s |}.

(** One constructor per query-builder chain that writes:
    [from(t).insert(v)], [from(t).update(v).eq('id', x)] or
    [.in('id', xs)], and [from('events').delete().eq('id', x)]. *)
Inductive call :=
| INSERT_events (values : events.row)
| UPDATE_events (values : events_patch) (ids : list string)
| DELETE_events (id : string)
| INSERT_swap_requests (values : swap_requests.row)
| UPDATE_swap_requests (status : string) (id : string).

(** The rows of a table that a filter on [id] selects. *)
Definition selected {V} (ids : list string) (t : gmap string V) : list V :=
  omap (λ i, t !! i) ids.

(** ** Row level security *)

(** A policy expression for the caller: [auth.uid()] is null on a client
    that is not signed in, and no comparison with it holds. *)
Definition allowed {A} (uid : option string) (policy : string → A → bool) (r : A)
  : bool :=
  match uid with
  | Some u => policy u r
  | None => false
  end.

(** [FOR UPDATE USING (auth.uid() = user_id)] with no [WITH CHECK]: the
    expression selects the rows the caller may update, the others are
    passed over, and it is checked again on each new row. *)
Definition update_event (uid : option string) (p : events_patch) (r : events.row)
  : events.row :=
  if allowed uid policy.events_update r then patch_event p r else r.

(** [FOR UPDATE USING (auth.uid() = recipient_id)] *)
Definition update_request (uid : option string) (s : string) (r : swap_requests.row)
  : swap_requests.row :=
  if allowed uid policy.swap_requests_update r then set_request_status s r else r.

(** [id UUID]: the identifiers the pages hold are the ones the store
    drew, but for the [id: ''] of the inbox's placeholder, which is no
    uuid; a filter that names it is an error (invalid input syntax for
    type uuid) and touches no row. *)
Definition malformed (ids : list string) : bool := bool_decide ("" ∈ ids).

(** What a call does to the store when [uid] makes it; [None] when a
    constraint of the schema or the check of a policy rejects it, and
    then nothing is written.

    - An insert needs a fresh primary key, the CHECK constraint and the
      [WITH CHECK] of the INSERT policy; [swap_requests] also needs
      both referenced events.
    - An update is applied to the rows its filter selects among those
      the [USING] of the UPDATE policy shows the caller (rows the
      SELECT policies show as well); each new row needs the CHECK
      constraint and, on [events], the same expression again.  A new
      row of [swap_requests] keeps its recipient.
    - A delete removes the row its filter selects if the [USING] of the
      DELETE policy shows it, and with it the requests that reference
      it.
    - An update or delete that reaches no row succeeds and changes
      nothing.

    The foreign keys are checked, and cascade, whatever the policies
    show. *)
Definition exec (uid : option string) (uuid : string) (c : call) (db : Database)
  : option Database :=
  match c with
  | INSERT_events v =>
      if decide (tbl_events db !! uuid = None) then
        if events.check v && allowed uid policy.events_insert v then
          Some {| tbl_events := <[uuid := v]> (tbl_events db);
                  tbl_swap_requests := tbl_swap_requests db |}
        else None
      else None
  | UPDATE_events p ids =>
      if malformed ids then None
      else if forallb (λ r, implb (allowed uid policy.events_update r)
                              (events.check (patch_event p r)
                               && allowed uid policy.events_update (patch_event p r)))
                      (selected ids (tbl_events db)) then
        Some {| tbl_events := foldr (alter (update_event uid p)) (tbl_events db) ids;
                tbl_swap_requests := tbl_swap_requests db |}
      else None
  | DELETE_events id =>
      if malformed [id] then None
      else match tbl_events db !! id with
           | Some r =>
               if allowed uid policy.events_delete r then
                 Some {| tbl_events := delete id (tbl_events db);
                         tbl_swap_requests :=
                           filter (λ kr, ¬ swap_requests.references id kr.2)
                                  (tbl_swap_requests db) |}
               else Some db
           | None => Some db
           end
  | INSERT_swap_requests v =>
      if decide (tbl_swap_requests db !! uuid = None) then
        if swap_requests.check v && allowed uid policy.swap_requests_insert v then
          if decide (is_Some (tbl_events db !! swap_requests.requester_event_id v)
                     ∧ is_Some (tbl_events db !! swap_requests.recipient_event_id v))
          then Some {| tbl_events := tbl_events db;
                       tbl_swap_requests := <[uuid := v]> (tbl_swap_requests db) |}
          else None
        else None
      else None
  | UPDATE_swap_requests s id =>
      if malformed [id] then None
      else if forallb (λ r, implb (allowed uid policy.swap_requests_update r)
                              (swap_requests.check (set_request_status s r)))
                      (selected [id] (tbl_swap_requests db)) then
        Some {| tbl_events := tbl_events db;
                tbl_swap_requests :=
                  alter (update_request uid s) id (tbl_swap_requests db) |}
      else None
  end.

(** ** The hosted store as seen from a page *)

(** The answers that are not the repository's to give, indexed by the
    number of calls made so far. *)
Record Backend := {
  refuses : nat → bool;
  gen_random_uuid : nat → string
}.

(** The store, the calls made so far, and the user signed in on the
    client that makes the next call: the [auth.uid()] of the policies
    and the [user] of [useAuth()]. *)
Record World := {
  store : Database;
  issued : list call;
  auth : option string
}.

Definition initial : World := {| store := empty_db; issued := []; auth := None |}.

(** Another user's client takes over, or the Navbar's Sign Out. *)
Definition sign_in (user : option string) (w : World) : World :=
  {| store := store w; issued := issued w; auth := user |}.

(** One awaited call: the answer is the [error] the page destructures,
    [true] when it is not null. *)
Definition rpc (B : Backend) (c : call) (w : World) : bool * World :=
  let n := List.length (issued w) in
  let log := (issued w ++ [c])%list in
  if refuses B n then (true, {| store := store w; issued := log; auth := auth w |})
  else match exec (auth w) (gen_random_uuid B n) c (store w) with
       | Some db => (false, {| store := db; issued := log; auth := auth w |})
       | None => (true, {| store := store w; issued := log; auth := auth w |})
       end.

(** A handler: the calls it awaits, each continued on the answer. *)
Inductive prog (A : Type) :=
| Ret (a : A)
| Await (c : call) (k : bool → prog A).

Arguments Ret {A} a.
Arguments Await {A} c k.

Notation "'await' c 'as' e 'in' k" := (Await c (λ e, k))
  (at level 10, c at level 200, e name, k at level 200).

Fixpoint run {A} (B : Backend) (p : prog A) (w : World) : A * World :=
  match p with
  | Ret a => (a, w)
  | Await c k => let '(error, w') := rpc B c w in run B (k error) w'
  end.

(** Every world a handler passes through, the first and the last
    included: what another session could observe in between. *)
Fixpoint instants {A} (B : Backend) (p : prog A) (w : World) : list World :=
  w :: match p with
       | Ret _ => []
       | Await c k => let '(error, w') := rpc B c w in instants B (k error) w'
       end.

(** The calls a handler can make, on some answers. *)
Inductive issues {A} : prog A → call → Prop :=
| issues_now c k : issues (Await c k) c
| issues_later c k error c' : issues (k error) c' → issues (Await c k) c'.

(** The notifications a handler ends with. *)
Inductive toast :=
| toast_error (message : string)
| toast_success (message : string).

(** ** src/pages/Dashboard.tsx *)
Module Dashboard.

(** The fields [handleCreateEvent] reads from the submitted form; the
    two [datetime-local] values stand for the instants they denote. *)
Record FormData := {
  form_title : string;
  form_startTime : Z;
  form_endTime : Z
}.

Definition handleCreateEvent (user : option string) (formData : FormData)
  : prog (option toast) :=
  match user with
  | None => Ret None
  | Some uid =>
      await INSERT_events {| events.user_id := uid;
                             events.title := form_title formData;
                             events.start_time := form_startTime formData;
                             events.end_time := form_endTime formData;
                             events.status := "BUSY" |} as error in
      if error then Ret (Some (toast_error "Failed to create event"))
      else Ret (Some (toast_success "Event created!"))
  end.

Definition toggleSwappable (eventId currentStatus : string) : prog toast :=
  if String.eqb currentStatus "SWAP_PENDING" then
    Ret (toast_error "Cannot modify event with pending swap")
  else
    let newStatus := if String.eqb currentStatus "BUSY" then "SWAPPABLE" else "BUSY" in
    await UPDATE_events {| set_user_id := None; set_status := Some newStatus |}
                        [eventId] as error in
    if error then Ret (toast_error "Failed to update event")
    else Ret (toast_success (if String.eqb newStatus "SWAPPABLE"
                             then "Event marked as swappable"
                             else "Event marked as busy")).

Definition deleteEvent (eventId : string) : prog toast :=
  await DELETE_events eventId as error in
  if error then Ret (toast_error "Failed to delete event")
  else Ret (toast_success "Event deleted").

End Dashboard.

(** ** src/pages/Marketplace.tsx *)
Module Marketplace.

Record Event := {
  id : string;
  title : string;
  start_time : Z;
  end_time : Z;
  status : string;
  user_id : string
}.

Definition Event_of (kr : string * events.row) : Event :=
  {| id := kr.1;
     title := events.title kr.2;
     start_time := events.start_time kr.2;
     end_time := events.end_time kr.2;
     status := events.status kr.2;
     user_id := events.user_id kr.2 |}.

Definition by_start_time (a b : Event) : Prop := (start_time a ≤ start_time b)%Z.

#[export] Instance by_start_time_dec a b : Decision (by_start_time a b).
Proof. unfold by_start_time. apply _. Defined.

(** [select('*').eq('status', 'SWAPPABLE').neq('user_id', user.id)
     .order('start_time', { ascending: true })] *)
Definition fetchSwappableSlots (db : Database) (user : string) : list Event :=
  merge_sort by_start_time
    (Event_of <$>
       filter (λ kr, events.status kr.2 = "SWAPPABLE" ∧ events.user_id kr.2 ≠ user)
              (map_to_list (tbl_events db))).

(** [select('*').eq('user_id', user.id).eq('status', 'SWAPPABLE')
     .order('start_time', { ascending: true })] *)
Definition fetchMySwappableSlots (db : Database) (user : string) : list Event :=
  merge_sort by_start_time
    (Event_of <$>
       filter (λ kr, events.user_id kr.2 = user ∧ events.status kr.2 = "SWAPPABLE")
              (map_to_list (tbl_events db))).

Definition requestSwap (user : option string) (selectedSlot : option Event)
    (myEventId : string) : prog (option toast) :=
  match user, selectedSlot with
  | Some uid, Some slot =>
      await INSERT_swap_requests
              {| swap_requests.requester_id := uid;
                 swap_requests.requester_event_id := myEventId;
                 swap_requests.recipient_id := user_id slot;
                 swap_requests.recipient_event_id := id slot;
                 swap_requests.status := "PENDING" |} as error in
      if error then Ret (Some (toast_error "Failed to create swap request"))
      else
        await UPDATE_events {| set_user_id := None; set_status := Some "SWAP_PENDING" |}
                            [myEventId; id slot] as updateError in
        if updateError then Ret (Some (toast_error "Failed to update event status"))
        else Ret (Some (toast_success "Swap request sent!"))
  | _, _ => Ret None
  end.

End Marketplace.

(** The row [requestSwap] inserts, by name. *)
Definition proposal_row (uid : string) (slot : Marketplace.Event) (myEventId : string)
  : swap_requests.row :=
  {| swap_requests.requester_id := uid;
     swap_requests.requester_event_id := myEventId;
     swap_requests.recipient_id := Marketplace.user_id slot;
     swap_requests.recipient_event_id := Marketplace.id slot;
     swap_requests.status := "PENDING" |}.

(** ** src/pages/Requests.tsx *)
Module Requests.

(** The event object the inbox attaches to a request. *)
Record EventInfo := {
  event_id : string;
  event_title : string;
  event_start_time : option Z;
  event_end_time : option Z
}.

Record SwapRequest := {
  id : string;
  status : string;
  requester_id : string;
  recipient_id : string;
  requester_event : EventInfo;
  recipient_event : EventInfo
}.

(** [{ id: '', title: 'Unknown', start_time: '', end_time: '' }] *)
Definition placeholder : EventInfo :=
  {| event_id := "";
     event_title := "Unknown";
     event_start_time := None;
     event_end_time := None |}.

(** The rows of [events] a SELECT returns to [reader]: those one of the
    two SELECT policies shows. *)
Definition visible (reader : string) (r : events.row) : bool :=
  policy.events_select_own reader r || policy.events_select_swappable reader r.

(** [events?.find(e => e.id === x) || { id: '', title: 'Unknown', ... }]
    over the answer to [from('events').select(...).in('id', eventIds)]. *)
Definition find_event (db : Database) (reader : string) (eventId : string)
  : EventInfo :=
  match tbl_events db !! eventId with
  | Some r =>
      if visible reader r then
        {| event_id := eventId;
           event_title := events.title r;
           event_start_time := Some (events.start_time r);
           event_end_time := Some (events.end_time r) |}
      else placeholder
  | None => placeholder
  end.

(** An incoming request as [fetchRequests] hands it to the cards: a row
    selected by [.eq('recipient_id', user.id)], so read by its
    recipient, with both events looked up. *)
Definition enrich (db : Database) (requestId : string) (req : swap_requests.row)
  : SwapRequest :=
  let reader := swap_requests.recipient_id req in
  {| id := requestId;
     status := swap_requests.status req;
     requester_id := swap_requests.requester_id req;
     recipient_id := swap_requests.recipient_id req;
     requester_event := find_event db reader (swap_requests.requester_event_id req);
     recipient_event := find_event db reader (swap_requests.recipient_event_id req) |}.

(** [format(new Date(event.start_time), "PPp")] in the card: the
    [start_time: ''] of the placeholder is no date, and [format] throws
    on it. *)
Definition renders (request : SwapRequest) : bool :=
  bool_decide (is_Some (event_start_time (requester_event request))
               ∧ is_Some (event_start_time (recipient_event request))).

Definition handleAcceptSwap (request : SwapRequest) : prog toast :=
  await UPDATE_swap_requests "ACCEPTED" (id request) as updateError in
  if updateError then Ret (toast_error "Failed to accept swap")
  else
    await UPDATE_events {| set_user_id := Some (recipient_id request);
                           set_status := Some "BUSY" |}
                        [event_id (requester_event request)] as swapError1 in
    await UPDATE_events {| set_user_id := Some (requester_id request);
                           set_status := Some "BUSY" |}
                        [event_id (recipient_event request)] as swapError2 in
    if swapError1 || swapError2 then Ret (toast_error "Failed to swap events")
    else Ret (toast_success "Swap accepted! Events have been exchanged.").

Definition handleRejectSwap (request : SwapRequest) : prog toast :=
  await UPDATE_swap_requests "REJECTED" (id request) as updateError in
  if updateError then Ret (toast_error "Failed to reject swap")
  else
    await UPDATE_events {| set_user_id := None; set_status := Some "SWAPPABLE" |}
                        [event_id (requester_event request);
                         event_id (recipient_event request)] as resetError in
    if resetError then Ret (toast_error "Failed to reset event status")
    else Ret (toast_success "Swap rejected. Events are now available again.").

(** The Accept and Reject buttons of an incoming card are rendered only
    under [request.status === 'PENDING']: a card of a request read as
    resolved offers nothing to click. *)
Definition acceptButton (request : SwapRequest) : option (prog toast) :=
  if String.eqb (status request) "PENDING" then Some (handleAcceptSwap request)
  else None.

Definition rejectButton (request : SwapRequest) : option (prog toast) :=
  if String.eqb (status request) "PENDING" then Some (handleRejectSwap request)
  else None.

End Requests.

(** A click on a button that may not be rendered. *)
Definition click (B : Backend) (button : option (prog toast)) (w : World)
  : option toast * World :=
  match button with
  | Some handler => let '(t, w') := run B handler w in (Some t, w')
  | None => (None, w)
  end.

(** A card of the request [r] stored under [requestId], as the inbox
    of its recipient read it now or earlier: it carries the row's users
    and, for each of the two events, the event's id or the
    placeholder's. *)
Definition card_of (requestId : string) (r : swap_requests.row)
    (request : Requests.SwapRequest) : Prop :=
  Requests.id request = requestId
  ∧ Requests.requester_id request = swap_requests.requester_id r
  ∧ Requests.recipient_id request = swap_requests.recipient_id r
  ∧ Requests.event_id (Requests.requester_event request)
    ∈ [swap_requests.requester_event_id r; ""]
  ∧ Requests.event_id (Requests.recipient_event request)
    ∈ [swap_requests.recipient_event_id r; ""].

(** ** Reading the store *)

Definition owner (db : Database) (eventId : string) : option string :=
  events.user_id <$> tbl_events db !! eventId.

Definition event_status (db : Database) (eventId : string) : option string :=
  events.status <$> tbl_events db !! eventId.

Definition request_status (db : Database) (requestId : string) : option string :=
  swap_requests.status <$> tbl_swap_requests db !! requestId.

(** The foreign keys of [swap_requests]: both referenced events exist. *)
Definition referential (db : Database) : Prop :=
  map_Forall (λ _ r,
      is_Some (tbl_events db !! swap_requests.requester_event_id r)
      ∧ is_Some (tbl_events db !! swap_requests.recipient_event_id r))
    (tbl_swap_requests db).

(** The CHECK constraint of [events], on every row. *)
Definition statuses_checked (db : Database) : Prop :=
  map_Forall (λ _ r, events.status r ∈ ["BUSY"; "SWAPPABLE"; "SWAP_PENDING"])
    (tbl_events db).

(** ** A session of clicks *)

Inductive action :=
| SignIn (user : option string)
| CreateEvent (user : option string) (formData : Dashboard.FormData)
| ToggleSwappable (eventId currentStatus : string)
| DeleteEvent (eventId : string)
| RequestSwap (user : option string) (selectedSlot : option Marketplace.Event)
    (myEventId : string)
| AcceptSwap (request : Requests.SwapRequest)
| RejectSwap (request : Requests.SwapRequest).

(** The worlds one action passes through.  The arguments are whatever
    the page held when the click came, current or stale. *)
Definition action_instants (B : Backend) (a : action) (w : World) : list World :=
  match a with
  | SignIn user => [w; sign_in user w]
  | CreateEvent user formData => instants B (Dashboard.handleCreateEvent user formData) w
  | ToggleSwappable eventId currentStatus =>
      instants B (Dashboard.toggleSwappable eventId currentStatus) w
  | DeleteEvent eventId => instants B (Dashboard.deleteEvent eventId) w
  | RequestSwap user selectedSlot myEventId =>
      instants B (Marketplace.requestSwap user selectedSlot myEventId) w
  | AcceptSwap request => instants B (Requests.handleAcceptSwap request) w
  | RejectSwap request => instants B (Requests.handleRejectSwap request) w
  end.

(** The calls one action can make. *)
Definition action_issues (a : action) (c : call) : Prop :=
  match a with
  | SignIn user => False
  | CreateEvent user formData => issues (Dashboard.handleCreateEvent user formData) c
  | ToggleSwappable eventId currentStatus =>
      issues (Dashboard.toggleSwappable eventId currentStatus) c
  | DeleteEvent eventId => issues (Dashboard.deleteEvent eventId) c
  | RequestSwap user selectedSlot myEventId =>
      issues (Marketplace.requestSwap user selectedSlot myEventId) c
  | AcceptSwap request => issues (Requests.handleAcceptSwap request) c
  | RejectSwap request => issues (Requests.handleRejectSwap request) c
  end.

(** The worlds a session passes through, each action started where the
    one before it ended. *)
Fixpoint session_instants (B : Backend) (s : list action) (w : World) : list World :=
  match s with
  | [] => [w]
  | a :: s' =>
      let ws := action_instants B a w in
      (ws ++ session_instants B s' (List.last ws w))%list
  end.


(** The worlds that sessions can reach from the empty store, however
    their handlers interleave: a call some handler can make is
    answered at any reachable world, for any signed-in user, by any
    backend. *)
Inductive reachable : World → Prop :=
| reachable_initial : reachable initial
| reachable_sign_in user w :
    reachable w → reachable (sign_in user w)
| reachable_call B a c w :
    reachable w → action_issues a c → reachable (rpc B c w).2.

(** The status a call writes to an event, if it writes one. *)
Definition written_status (c : call) : option string :=
  match c with
  | INSERT_events v => Some (events.status v)
  | UPDATE_events p _ => set_status p
  | _ => None
  end.

(** No PENDING request names an event that is not there. *)
Definition no_pending_orphan (db : Database) : Prop :=
  ∀ requestId r eventId,
    tbl_swap_requests db !! requestId = Some r →
    swap_requests.status r = "PENDING" →
    swap_requests.references eventId r →
    is_Some (tbl_events db !! eventId).

(** The CHECK constraint of [swap_requests], on every row. *)
Definition request_statuses_checked (db : Database) : Prop :=
  map_Forall (λ _ r, swap_requests.status r ∈ ["PENDING"; "ACCEPTED"; "REJECTED"])
    (tbl_swap_requests db).

(** The status a call writes to a request, if it writes one. *)
Definition written_request_status (c : call) : option string :=
  match c with
  | INSERT_swap_requests v => Some (swap_requests.status v)
  | UPDATE_swap_requests s _ => Some s
  | _ => None
  end.

(** ** What the cards show *)

(** What a [<Badge variant=...>text</Badge>] shows. *)
Record Badge := {
  variant : string;
  label : string
}.

(** ** src/pages/Dashboard.tsx, the cards *)
Module DashboardView.

Record Event := {
  id : string;
  title : string;
  start_time : Z;
  end_time : Z;
  status : string
}.

Definition Event_of (kr : string * events.row) : Event :=
  {| id := kr.1;
     title := events.title kr.2;
     start_time := events.start_time kr.2;
     end_time := events.end_time kr.2;
     status := events.status kr.2 |}.

Definition by_start_time (a b : Event) : Prop := (start_time a ≤ start_time b)%Z.

#[export] Instance by_start_time_dec a b : Decision (by_start_time a b).
Proof. unfold by_start_time. apply _. Defined.

(** [select('*').eq('user_id', user.id).order('start_time', { ascending: true })] *)
Definition fetchEvents (db : Database) (user : string) : list Event :=
  merge_sort by_start_time
    (Event_of <$> filter (λ kr, events.user_id kr.2 = user) (map_to_list (tbl_events db))).

Definition getStatusBadge (status : string) : option Badge :=
  if String.eqb status "BUSY" then Some {| variant := "default"; label := "Busy" |}
  else if String.eqb status "SWAPPABLE" then
    Some {| variant := "success"; label := "Swappable" |}
  else if String.eqb status "SWAP_PENDING" then
    Some {| variant := "warning"; label := "Pending Swap" |}
  else None.

(** The first button of a card: its text, and the handler behind it
    unless [disabled={event.status === 'SWAP_PENDING'}]. *)
Definition toggleText (event : Event) : string :=
  if String.eqb (status event) "SWAPPABLE" then "Mark Busy" else "Make Swappable".

Definition toggleButton (event : Event) : option (prog toast) :=
  if String.eqb (status event) "SWAP_PENDING" then None
  else Some (Dashboard.toggleSwappable (id event) (status event)).

End DashboardView.

(** ** src/pages/Requests.tsx, the cards *)
Module RequestsView.

Definition getStatusBadge (status : string) : option Badge :=
  if String.eqb status "PENDING" then Some {| variant := "warning"; label := "Pending" |}
  else if String.eqb status "ACCEPTED" then
    Some {| variant := "success"; label := "Accepted" |}
  else if String.eqb status "REJECTED" then
    Some {| variant := "destructive"; label := "Rejected" |}
  else None.

End RequestsView.

(** ** src/components/Navbar.tsx *)
Module Navbar.

(** [isActive(path)] for the page at [pathname]. *)
Definition isActive (pathname path : string) : bool := String.eqb pathname path.

(** The variant of the link button to [path]. *)
Definition linkVariant (pathname path : string) : string :=
  if isActive pathname path then "default" else "ghost".

(** The [<Link to=...>] elements of the bar, each with the variant of
    the button it wraps if it wraps one: the brand, shown to everyone,
    and the three page buttons under [{user && ...}]. *)
Definition links (user : option string) (pathname : string)
  : list (string * option string) :=
  ("/", None)
  :: match user with
     | Some _ => [("/", Some (linkVariant pathname "/"));
                  ("/marketplace", Some (linkVariant pathname "/marketplace"));
                  ("/requests", Some (linkVariant pathname "/requests"))]
     | None => []
     end.

End Navbar.

(** ** The scenario of two users and two slots *)

Module Scenario.

(** A backend that admits every call; the identifiers it draws for the
    two events and for the request. *)
Definition steady : Backend :=
  {| refuses := λ _, false;
     gen_random_uuid := λ n, match n with 0 => "E1" | 2 => "E2" | _ => "R" end |}.

Definition standup : Dashboard.FormData :=
  {| Dashboard.form_title := "Standup";
     Dashboard.form_startTime := 540;
     Dashboard.form_endTime := 555 |}.

Definition review : Dashboard.FormData :=
  {| Dashboard.form_title := "Review";
     Dashboard.form_startTime := 840;
     Dashboard.form_endTime := 900 |}.

Definition session_end (B : Backend) (s : list action) (w : World) : World :=
  List.last (session_instants B s w) w.

(** A creates E1 and marks it swappable, B does the same with E2, and
    A comes back. *)
Definition listed : World :=
  session_end steady
    [SignIn (Some "A"); CreateEvent (Some "A") standup; ToggleSwappable "E1" "BUSY";
     SignIn (Some "B"); CreateEvent (Some "B") review; ToggleSwappable "E2" "BUSY";
     SignIn (Some "A")] initial.

(** The two rows at that point. *)
Definition E1 : events.row :=
  {| events.user_id := "A"; events.title := "Standup";
     events.start_time := 540; events.end_time := 555;
     events.status := "SWAPPABLE" |}.

Definition E2 : events.row :=
  {| events.user_id := "B"; events.title := "Review";
     events.start_time := 840; events.end_time := 900;
     events.status := "SWAPPABLE" |}.

(** A opens the marketplace, picks the first slot on offer and offers
    the first slot of their own. *)
Definition proposal : action :=
  RequestSwap (Some "A")
    (head (Marketplace.fetchSwappableSlots (store listed) "A"))
    (default "" (Marketplace.id <$> head (Marketplace.fetchMySwappableSlots (store listed) "A"))).

Definition proposed : World := session_end steady [proposal] listed.

Definition R : swap_requests.row :=
  {| swap_requests.requester_id := "A";
     swap_requests.requester_event_id := "E1";
     swap_requests.recipient_id := "B";
     swap_requests.recipient_event_id := "E2";
     swap_requests.status := "PENDING" |}.

(** The instant between the two calls of A's proposal: R is stored and
    E1 is not locked yet. *)
Definition requested : World := (rpc steady (INSERT_swap_requests R) listed).2.

(** The card of R as B's inbox reads it at that instant: both events
    are on offer, so both are shown to B. *)
Definition early_card : Requests.SwapRequest := Requests.enrich (store requested) "R" R.

(** E1 once A's proposal has locked it. *)
Definition E1_pending : events.row :=
  patch_event {| set_user_id := None; set_status := Some "SWAP_PENDING" |} E1.

(** B opens the inbox. *)
Definition inbox : World := sign_in (Some "B") proposed.

(** The card of R in B's inbox, as read after the proposal. *)
Definition card : Requests.SwapRequest := Requests.enrich (store inbox) "R" R.

Definition accepted : World := session_end steady [AcceptSwap card] inbox.

Definition rejected : World := session_end steady [RejectSwap card] inbox.

(** A deletes E1 while R is pending on it. *)
Definition deleted : World := session_end steady [DeleteEvent "E1"] proposed.

(** B takes E2 back after A has read the marketplace. *)
Definition withdrawn : World :=
  session_end steady
    [SignIn (Some "B"); ToggleSwappable "E2" "SWAPPABLE"; SignIn (Some "A")] listed.

(** A offers E1 for E2 from the lists read before B took E2 back. *)
Definition overtaken : World := session_end steady [proposal] withdrawn.

(** A marks E1 busy from a dashboard card read before the proposal. *)
Definition unlocked_by_stale_card : World :=
  session_end steady [ToggleSwappable "E1" "SWAPPABLE"] proposed.

(** A backend that is unreachable for the fifth call and after. *)
Definition dropped : Backend :=
  {| refuses := λ n, Nat.leb 4 n;
     gen_random_uuid := gen_random_uuid steady |}.

(** A form whose end lies before its start. *)
Definition backwards : Dashboard.FormData :=
  {| Dashboard.form_title := "Backwards";
     Dashboard.form_startTime := 900;
     Dashboard.form_endTime := 840 |}.

End Scenario.

(** ** The scenario when a call is lost *)

Module Faults.

(** Every call is admitted but the one numbered [k]. *)
Definition refusing (k : nat) : Backend :=
  {| refuses := Nat.eqb k;
     gen_random_uuid := gen_random_uuid Scenario.steady |}.

(** A's proposal when the write of the two statuses is turned down: R
    is pending on two events that are still on offer. *)
Definition unlocked : World :=
  Scenario.session_end (refusing 5) [Scenario.proposal] Scenario.listed.

(** B opens the inbox then: both events of R are shown to B. *)
Definition inbox : World := sign_in (Some "B") unlocked.

(** The card of R as B reads it there. *)
Definition card : Requests.SwapRequest := Requests.enrich (store inbox) "R" Scenario.R.

(** B rejects in one window ... *)
Definition declined : World :=
  Scenario.session_end Scenario.steady [RejectSwap card] inbox.

(** ... and accepts from the card still shown in another. *)
Definition overridden : World :=
  Scenario.session_end Scenario.steady [AcceptSwap card] declined.

(** B's Accept of the pending R when the first event write is turned down. *)
Definition accepted_in_name : World :=
  Scenario.session_end (refusing 7) [AcceptSwap Scenario.card] Scenario.inbox.

End Faults.

(** * The calls and the policies *)

(** ** The calls, one at a time *)

Section calls.
Context (B : Backend).

Lemma rpc_admitted c w w' :
  rpc B c w = (false, w') →
  exec (auth w) (gen_random_uuid B (List.length (issued w))) c (store w) = Some (store w')
  ∧ issued w' = (issued w ++ [c])%list
  ∧ auth w' = auth w.
Proof.
  unfold rpc. destruct (refuses B _); [intros [=]|].
  destruct (exec _ _ c (store w)) as [db|]; intros [= <-]; auto.
Qed.

Lemma rpc_failed c w w' :
  rpc B c w = (true, w') →
  store w' = store w ∧ issued w' = (issued w ++ [c])%list ∧ auth w' = auth w.
Proof.
  unfold rpc. destruct (refuses B _); [intros [= <-]; auto|].
  destruct (exec _ _ c (store w)) as [db|]; intros [= <-]; auto.
Qed.

Lemma rpc_log c w : issued (rpc B c w).2 = (issued w ++ [c])%list.
Proof.
  destruct (rpc B c w) as [[] w'] eqn:E; simpl.
  - by apply rpc_failed in E as (_ & -> & _).
  - by apply rpc_admitted in E as (_ & -> & _).
Qed.

Lemma rpc_auth c w : auth (rpc B c w).2 = auth w.
Proof.
  destruct (rpc B c w) as [[] w'] eqn:E; simpl.
  - by apply rpc_failed in E as (_ & _ & ->).
  - by apply rpc_admitted in E as (_ & _ & ->).
Qed.

Lemma rpc_length c w err w' :
  rpc B c w = (err, w') → List.length (issued w') = S (List.length (issued w)).
Proof.
  intros E. pose proof (rpc_log c w) as Hl. rewrite E in Hl. simpl in Hl.
  rewrite Hl, length_app. simpl. lia.
Qed.

End calls.

(** The store once both slots are listed, and after A's proposal. *)
Example scenario_worlds :
  tbl_events (store Scenario.listed) = {[ "E1" := Scenario.E1; "E2" := Scenario.E2 ]}
  ∧ auth Scenario.listed = Some "A"
  ∧ tbl_events (store Scenario.proposed)
    = {[ "E1" := Scenario.E1_pending; "E2" := Scenario.E2 ]}
  ∧ tbl_swap_requests (store Scenario.proposed) = {[ "R" := Scenario.R ]}
  ∧ List.length (issued Scenario.proposed) = 6%nat.
Proof. vm_compute. repeat split; reflexivity. Qed.

Lemma db_eq (a b : Database) :
  tbl_events a = tbl_events b →
  tbl_swap_requests a = tbl_swap_requests b →
  a = b.
Proof. destruct a, b; simpl. by intros -> ->. Qed.

(** ** The policies, read as equations *)

Lemma allowed_events_update uid r :
  allowed uid policy.events_update r = true ↔ uid = Some (events.user_id r).
Proof.
  destruct uid as [u|]; simpl; [|split; intros [=]].
  unfold policy.events_update. rewrite bool_decide_eq_true.
  split; [by intros -> | by intros [= ->]].
Qed.

Lemma allowed_events_insert uid r :
  allowed uid policy.events_insert r = true ↔ uid = Some (events.user_id r).
Proof. apply allowed_events_update. Qed.

Lemma allowed_events_delete uid r :
  allowed uid policy.events_delete r = true ↔ uid = Some (events.user_id r).
Proof. apply allowed_events_update. Qed.

Lemma allowed_swap_requests_insert uid r :
  allowed uid policy.swap_requests_insert r = true
  ↔ uid = Some (swap_requests.requester_id r).
Proof.
  destruct uid as [u|]; simpl; [|split; intros [=]].
  unfold policy.swap_requests_insert. rewrite bool_decide_eq_true.
  split; [by intros -> | by intros [= ->]].
Qed.

Lemma allowed_swap_requests_update uid r :
  allowed uid policy.swap_requests_update r = true
  ↔ uid = Some (swap_requests.recipient_id r).
Proof.
  destruct uid as [u|]; simpl; [|split; intros [=]].
  unfold policy.swap_requests_update. rewrite bool_decide_eq_true.
  split; [by intros -> | by intros [= ->]].
Qed.

Lemma update_event_own uid p r :
  uid = Some (events.user_id r) → update_event uid p r = patch_event p r.
Proof.
  intros H. unfold update_event. by rewrite (proj2 (allowed_events_update uid r) H).
Qed.

Lemma update_event_foreign uid p r :
  uid ≠ Some (events.user_id r) → update_event uid p r = r.
Proof.
  intros H. unfold update_event.
  destruct (allowed uid policy.events_update r) eqn:E; [|done].
  by apply allowed_events_update in E.
Qed.

Lemma update_request_own uid s r :
  uid = Some (swap_requests.recipient_id r) →
  update_request uid s r = set_request_status s r.
Proof.
  intros H. unfold update_request.
  by rewrite (proj2 (allowed_swap_requests_update uid r) H).
Qed.

Lemma patch_event_idemp p r : patch_event p (patch_event p r) = patch_event p r.
Proof. destruct p as [[u|] [s|]]; reflexivity. Qed.

Lemma update_event_idemp uid p r :
  update_event uid p (update_event uid p r) = update_event uid p r.
Proof.
  unfold update_event. destruct (allowed uid policy.events_update r) eqn:E.
  - destruct (allowed uid policy.events_update (patch_event p r));
      [apply patch_event_idemp | done].
  - by rewrite E.
Qed.

Lemma lookup_foldr_alter {V} (f : V → V) (t : gmap string V) ids i :
  (∀ v, f (f v) = f v) →
  foldr (alter f) t ids !! i = if decide (i ∈ ids) then f <$> t !! i else t !! i.
Proof.
  intros Hf. induction ids as [|j ids IH]; simpl; [done|].
  rewrite lookup_alter. destruct (decide (j = i)) as [->|Hne]; rewrite IH.
  - rewrite (decide_True _ _ (list_elem_of_here i ids)).
    destruct (decide (i ∈ ids)); [|done].
    destruct (t !! i); simpl; by rewrite ?Hf.
  - destruct (decide (i ∈ ids)) as [Hin|Hin].
    + rewrite decide_True; [done | by right].
    + rewrite decide_False; [done | by intros [->|?]%elem_of_cons].
Qed.

Lemma selected_forallb {V} (f : V → bool) ids (t : gmap string V) i v :
  forallb f (selected ids t) = true → i ∈ ids → t !! i = Some v → f v = true.
Proof.
  unfold selected. induction ids as [|j ids IH]; simpl.
  - by intros _ ?%elem_of_nil.
  - intros Hall [->|Hin]%elem_of_cons Hv.
    + rewrite Hv in Hall. simpl in Hall. by apply andb_prop in Hall as [? _].
    + destruct (t !! j); simpl in Hall; [apply andb_prop in Hall as [_ Hall]|]; eauto.
Qed.

(** ** The calls, by what they leave *)

Lemma exec_insert_events uid u v db db' :
  exec uid u (INSERT_events v) db = Some db' →
  tbl_events db !! u = None
  ∧ tbl_events db' = <[u := v]> (tbl_events db)
  ∧ tbl_swap_requests db' = tbl_swap_requests db
  ∧ uid = Some (events.user_id v).
Proof.
  simpl. case_decide as Hfresh; [|done].
  destruct (events.check v); [|done]. simpl.
  destruct (allowed uid policy.events_insert v) eqn:Hp; [|done].
  apply allowed_events_insert in Hp. by intros [= <-].
Qed.

Lemma exec_update_events uid u p ids db db' :
  exec uid u (UPDATE_events p ids) db = Some db' →
  tbl_swap_requests db' = tbl_swap_requests db
  ∧ (∀ i, tbl_events db' !! i =
          if decide (i ∈ ids) then update_event uid p <$> tbl_events db !! i
          else tbl_events db !! i)
  ∧ ("" ∉ ids)
  ∧ (∀ i r, i ∈ ids → tbl_events db !! i = Some r → uid = Some (events.user_id r) →
       events.check (patch_event p r) = true
       ∧ uid = Some (events.user_id (patch_event p r))).
Proof.
  simpl. destruct (malformed ids) eqn:Hm; [done|].
  destruct (forallb _ _) eqn:Hall; [|done]. intros [= <-]; simpl.
  split; [done|]. split; [|split].
  - intros i. apply lookup_foldr_alter, update_event_idemp.
  - by apply bool_decide_eq_false in Hm.
  - intros i r Hin Hr Hown.
    pose proof (selected_forallb _ ids (tbl_events db) i r Hall Hin Hr) as H.
    simpl in H. rewrite (proj2 (allowed_events_update uid r) Hown) in H. simpl in H.
    apply andb_prop in H as [H1 H2]. by apply allowed_events_update in H2.
Qed.

Lemma exec_insert_swap_requests uid u v db db' :
  exec uid u (INSERT_swap_requests v) db = Some db' →
  tbl_swap_requests db !! u = None
  ∧ tbl_events db' = tbl_events db
  ∧ tbl_swap_requests db' = <[u := v]> (tbl_swap_requests db)
  ∧ uid = Some (swap_requests.requester_id v).
Proof.
  simpl. case_decide as Hfresh; [|done].
  destruct (swap_requests.check v); [|done]. simpl.
  destruct (allowed uid policy.swap_requests_insert v) eqn:Hp; [|done].
  apply allowed_swap_requests_insert in Hp.
  case_decide; [|done]. by intros [= <-].
Qed.

Lemma exec_update_swap_requests uid u s id db db' :
  exec uid u (UPDATE_swap_requests s id) db = Some db' →
  tbl_events db' = tbl_events db
  ∧ tbl_swap_requests db' = alter (update_request uid s) id (tbl_swap_requests db).
Proof.
  simpl. destruct (malformed [id]); [done|].
  case_match; [|done]. by intros [= <-].
Qed.

Lemma exec_delete_events uid u id db db' :
  exec uid u (DELETE_events id) db = Some db' →
  (db' = db
   ∧ ∀ r, tbl_events db !! id = Some r → uid ≠ Some (events.user_id r))
  ∨ (∃ r, tbl_events db !! id = Some r ∧ uid = Some (events.user_id r)
          ∧ tbl_events db' = delete id (tbl_events db)
          ∧ tbl_swap_requests db'
            = filter (λ kr, ¬ swap_requests.references id kr.2) (tbl_swap_requests db)).
Proof.
  simpl. destruct (malformed [id]); [done|].
  destruct (tbl_events db !! id) as [r|] eqn:Hr.
  - destruct (allowed uid policy.events_delete r) eqn:Hp.
    + apply allowed_events_delete in Hp. intros [= <-]. right. eauto.
    + intros [= <-]. left. split; [done|]. intros r' [= <-] Hown.
      apply allowed_events_delete in Hown. congruence.
  - intros [= <-]. left. split; [done|]. by intros r [=].
Qed.

(** An update that would hand a row of the caller to someone else is
    rejected by the policy, whatever else it names. *)
Lemma exec_update_events_gives_away uid u p ids db i r x :
  i ∈ ids → tbl_events db !! i = Some r →
  uid = Some (events.user_id r) → set_user_id p = Some x → x ≠ events.user_id r →
  exec uid u (UPDATE_events p ids) db = None.
Proof.
  intros Hin Hr Hown Hx Hne.
  destruct (exec uid u (UPDATE_events p ids) db) as [db'|] eqn:E; [|done].
  apply exec_update_events in E as (_ & _ & _ & Hchecked).
  destruct (Hchecked i r Hin Hr Hown) as [_ Hnew].
  simpl in Hnew. rewrite Hx in Hnew. simpl in Hnew. congruence.
Qed.

(** ** What a caller cannot touch *)

(** The rows of [events] that belong to someone else are as they were
    after any call. *)
Lemma exec_keeps_foreign_events uid u c db db' i r :
  exec uid u c db = Some db' →
  tbl_events db !! i = Some r → uid ≠ Some (events.user_id r) →
  tbl_events db' !! i = Some r.
Proof.
  intros E Hr Hforeign. destruct c as [v|p ids|id|v|s id].
  - apply exec_insert_events in E as (Hfresh & -> & _).
    rewrite lookup_insert_ne; [done|]. intros ->. congruence.
  - apply exec_update_events in E as (_ & -> & _).
    case_decide; [|done]. rewrite Hr. simpl. by rewrite update_event_foreign.
  - apply exec_delete_events in E as [[-> _]|(r' & Hr' & Hown & -> & _)]; [done|].
    rewrite lookup_delete_ne; [done|]. intros ->. congruence.
  - by apply exec_insert_swap_requests in E as (_ & -> & _).
  - by apply exec_update_swap_requests in E as [-> _].
Qed.

(** No call changes the owner of a row of [events] that stays. *)
Lemma exec_keeps_owner uid u p ids db db' i r :
  exec uid u (UPDATE_events p ids) db = Some db' →
  tbl_events db !! i = Some r →
  ∃ r', tbl_events db' !! i = Some r' ∧ events.user_id r' = events.user_id r.
Proof.
  intros E Hr. pose proof E as (_ & Hev & _ & Hchecked)%exec_update_events.
  rewrite Hev, Hr. case_decide as Hin; [|eauto]. simpl. eexists. split; [done|].
  destruct (decide (uid = Some (events.user_id r))) as [Hown|Hforeign].
  - rewrite update_event_own by done.
    destruct (Hchecked i r Hin Hr Hown) as [_ Hnew]. congruence.
  - by rewrite update_event_foreign.
Qed.

Section foreign.
Context (B : Backend).

Lemma rpc_keeps_foreign_events c w i r :
  tbl_events (store w) !! i = Some r → auth w ≠ Some (events.user_id r) →
  tbl_events (store (rpc B c w).2) !! i = Some r.
Proof.
  intros Hr Hforeign. destruct (rpc B c w) as [[] w'] eqn:E; simpl.
  - by apply rpc_failed in E as (-> & _).
  - apply rpc_admitted in E as (E & _). by eapply exec_keeps_foreign_events.
Qed.

Lemma run_keeps_foreign_events {A} (p : prog A) w i r :
  tbl_events (store w) !! i = Some r → auth w ≠ Some (events.user_id r) →
  tbl_events (store (run B p w).2) !! i = Some r.
Proof.
  revert w. induction p as [a|c k IH]; intros w Hr Hforeign; simpl; [done|].
  pose proof (rpc_keeps_foreign_events c w i r Hr Hforeign) as Hr1.
  pose proof (rpc_auth B c w) as Hauth.
  destruct (rpc B c w) as [error w1]. simpl in *.
  apply IH; [done|]. by rewrite Hauth.
Qed.

End foreign.

(** ** The inbox: accept and reject *)

Lemma find_event_id db reader eventId :
  Requests.event_id (Requests.find_event db reader eventId) ∈ [eventId; ""].
Proof.
  unfold Requests.find_event.
  destruct (tbl_events db !! eventId) as [r|]; [destruct (Requests.visible reader r)|];
    simpl; rewrite !elem_of_cons; auto.
Qed.

Lemma find_event_visible db reader eventId r :
  tbl_events db !! eventId = Some r → Requests.visible reader r = true →
  Requests.find_event db reader eventId
  = {| Requests.event_id := eventId;
       Requests.event_title := events.title r;
       Requests.event_start_time := Some (events.start_time r);
       Requests.event_end_time := Some (events.end_time r) |}.
Proof. intros Hr Hv. unfold Requests.find_event. by rewrite Hr, Hv. Qed.

Lemma find_event_hidden db reader eventId r :
  tbl_events db !! eventId = Some r →
  events.user_id r ≠ reader → events.status r ≠ "SWAPPABLE" →
  Requests.find_event db reader eventId = Requests.placeholder.
Proof.
  intros Hr Hu Hs. unfold Requests.find_event, Requests.visible. rewrite Hr.
  unfold policy.events_select_own, policy.events_select_swappable.
  rewrite !bool_decide_eq_false_2; [done|done|congruence].
Qed.

Lemma enrich_card_of db requestId r :
  card_of requestId r (Requests.enrich db requestId r).
Proof. unfold card_of. simpl. auto using find_event_id. Qed.

Section inbox.
Context (B : Backend).

Lemma handleAcceptSwap_success request w m w' :
  run B (Requests.handleAcceptSwap request) w = (toast_success m, w') →
  ∃ w1 w2,
    rpc B (UPDATE_swap_requests "ACCEPTED" (Requests.id request)) w = (false, w1)
    ∧ rpc B (UPDATE_events {| set_user_id := Some (Requests.recipient_id request);
                              set_status := Some "BUSY" |}
                           [Requests.event_id (Requests.requester_event request)]) w1
      = (false, w2)
    ∧ rpc B (UPDATE_events {| set_user_id := Some (Requests.requester_id request);
                              set_status := Some "BUSY" |}
                           [Requests.event_id (Requests.recipient_event request)]) w2
      = (false, w').
Proof.
  simpl. destruct (rpc B _ w) as [[] w1] eqn:E1; simpl; [intros [=]|].
  destruct (rpc B _ w1) as [[] w2] eqn:E2; simpl;
    destruct (rpc B _ w2) as [[] w3] eqn:E3; simpl; intros [= <- <-]; eauto.
Qed.

Lemma handleRejectSwap_success request w m w' :
  run B (Requests.handleRejectSwap request) w = (toast_success m, w') →
  ∃ w1,
    rpc B (UPDATE_swap_requests "REJECTED" (Requests.id request)) w = (false, w1)
    ∧ rpc B (UPDATE_events {| set_user_id := None; set_status := Some "SWAPPABLE" |}
                           [Requests.event_id (Requests.requester_event request);
                            Requests.event_id (Requests.recipient_event request)]) w1
      = (false, w').
Proof.
  simpl. destruct (rpc B _ w) as [[] w1] eqn:E1; simpl; [intros [=]|].
  destruct (rpc B _ w1) as [[] w2] eqn:E2; simpl; intros [= <- <-]; eauto.
Qed.

Lemma click_rendered (button : option (prog toast)) w t w' :
  click B button w = (Some t, w') →
  ∃ handler, button = Some handler ∧ run B handler w = (t, w').
Proof.
  destruct button as [h|]; simpl; [|intros [=]].
  destruct (run B h w) as [t0 w0] eqn:E. intros [= <- <-]. eauto.
Qed.

Lemma rpc_rejected c w :
  exec (auth w) (gen_random_uuid B (List.length (issued w))) c (store w) = None →
  (rpc B c w).1 = true.
Proof. intros E. unfold rpc. rewrite E. by destruct (refuses B _). Qed.

(** An update of events that names only rows of other users, or the
    placeholder's id, leaves the store as it was, whatever it answers. *)
Lemma rpc_update_events_skipped p ids w :
  (∀ i r, "" ∉ ids → i ∈ ids → tbl_events (store w) !! i = Some r →
          auth w ≠ Some (events.user_id r)) →
  store (rpc B (UPDATE_events p ids) w).2 = store w.
Proof.
  intros Hforeign. destruct (rpc B _ w) as [[] w'] eqn:E; simpl.
  - by apply rpc_failed in E as (-> & _).
  - apply rpc_admitted in E as ((Hreq & Hev & Hwf & _)%exec_update_events & _).
    apply db_eq; [|done]. apply map_eq. intros i. rewrite Hev.
    case_decide as Hin; [|done].
    destruct (tbl_events (store w) !! i) as [r|] eqn:Hr; [|done].
    simpl. rewrite update_event_foreign; eauto.
Qed.

(** An update of events that names another user as the owner leaves
    the store as it was, whatever it answers: the rows of others are
    passed over, and a row of the caller makes it an error. *)
Lemma rpc_update_events_gives_away p ids w x :
  set_user_id p = Some x → auth w ≠ Some x →
  store (rpc B (UPDATE_events p ids) w).2 = store w.
Proof.
  intros Hx Hne. destruct (rpc B _ w) as [[] w'] eqn:E; simpl.
  - by apply rpc_failed in E as (-> & _).
  - apply rpc_admitted in E as ((Hreq & Hev & _ & Hchecked)%exec_update_events & _).
    apply db_eq; [|done]. apply map_eq. intros i. rewrite Hev.
    case_decide as Hin; [|done].
    destruct (tbl_events (store w) !! i) as [r|] eqn:Hr; [|done].
    simpl. rewrite update_event_foreign; [done|]. intros Hown.
    destruct (Hchecked i r Hin Hr Hown) as [_ Hnew].
    simpl in Hnew. rewrite Hx in Hnew. simpl in Hnew. congruence.
Qed.

Lemma rpc_update_events_gives_away_error p id w x r e :
  set_user_id p = Some x → auth w ≠ Some x →
  tbl_events (store w) !! e = Some r → auth w = Some (events.user_id r) →
  id ∈ [e; ""] →
  (rpc B (UPDATE_events p [id]) w).1 = true.
Proof.
  intros Hx Hne Hr Hown Hid. apply rpc_rejected.
  apply elem_of_cons in Hid as [->|Hid].
  - eapply exec_update_events_gives_away; [apply list_elem_of_here|done..|].
    intros ->. congruence.
  - apply list_elem_of_singleton in Hid as ->. reflexivity.
Qed.

Lemma rpc_update_swap_requests s id w r err w' :
  tbl_swap_requests (store w) !! id = Some r →
  auth w = Some (swap_requests.recipient_id r) →
  rpc B (UPDATE_swap_requests s id) w = (err, w') →
  tbl_events (store w') = tbl_events (store w)
  ∧ auth w' = auth w
  ∧ if err then store w' = store w
    else tbl_swap_requests (store w') = <[id := set_request_status s r]> (tbl_swap_requests (store w)).
Proof.
  intros Hr Hown E. destruct err.
  - apply rpc_failed in E as (-> & _ & ->). done.
  - apply rpc_admitted in E as ((-> & ->)%exec_update_swap_requests & _ & ->).
    split; [done|]. split; [done|].
    apply map_eq. intros i. rewrite lookup_alter.
    case_decide as Hi; [subst i|by rewrite lookup_insert_ne].
    rewrite lookup_insert_eq, Hr. simpl. by rewrite update_request_own.
Qed.

(** What the two event writes of [handleAcceptSwap] do when the
    recipient makes them for a request from someone else: nothing. *)
Lemma accept_event_writes w requestId r request :
  auth w = Some (swap_requests.recipient_id r) →
  swap_requests.requester_id r ≠ swap_requests.recipient_id r →
  (∀ ra, tbl_events (store w) !! swap_requests.requester_event_id r = Some ra →
         events.user_id ra ≠ swap_requests.recipient_id r) →
  card_of requestId r request →
  ∀ e1 w2 e2 w3,
    rpc B (UPDATE_events {| set_user_id := Some (Requests.recipient_id request);
                            set_status := Some "BUSY" |}
                         [Requests.event_id (Requests.requester_event request)]) w
      = (e1, w2) →
    rpc B (UPDATE_events {| set_user_id := Some (Requests.requester_id request);
                            set_status := Some "BUSY" |}
                         [Requests.event_id (Requests.recipient_event request)]) w2
      = (e2, w3) →
    store w3 = store w
    ∧ ∀ rb, tbl_events (store w) !! swap_requests.recipient_event_id r = Some rb →
            events.user_id rb = swap_requests.recipient_id r → e2 = true.
Proof.
  intros Hauth Hne Hforeign (_ & Hq & Hp & Ha & Hb) e1 w2 e2 w3 E2 E3.
  assert (store w2 = store w) as Hs2.
  { replace w2 with (rpc B (UPDATE_events {| set_user_id := Some (Requests.recipient_id request);
                            set_status := Some "BUSY" |}
                         [Requests.event_id (Requests.requester_event request)]) w).2
      by (by rewrite E2).
    apply rpc_update_events_skipped. intros i ra Hwf ->%list_elem_of_singleton Hra.
    apply elem_of_cons in Ha as [Ha|Ha%list_elem_of_singleton].
    - rewrite Ha in Hra. rewrite Hauth. intros [= Hown]. by eapply Hforeign.
    - destruct Hwf. rewrite Ha. apply list_elem_of_here. }
  assert (auth w2 = auth w) as Ha2.
  { pose proof (rpc_auth B (UPDATE_events {| set_user_id := Some (Requests.recipient_id request);
                            set_status := Some "BUSY" |}
                         [Requests.event_id (Requests.requester_event request)]) w) as H.
    by rewrite E2 in H. }
  assert (auth w2 ≠ Some (Requests.requester_id request)) as Hne2.
  { rewrite Ha2, Hauth, Hq. congruence. }
  split.
  - rewrite <- Hs2.
    replace w3 with (rpc B (UPDATE_events {| set_user_id := Some (Requests.requester_id request);
                            set_status := Some "BUSY" |}
                         [Requests.event_id (Requests.recipient_event request)]) w2).2
      by (by rewrite E3).
    by eapply rpc_update_events_gives_away.
  - intros rb Hrb Hown.
    replace e2 with (rpc B (UPDATE_events {| set_user_id := Some (Requests.requester_id request);
                            set_status := Some "BUSY" |}
                         [Requests.event_id (Requests.recipient_event request)]) w2).1
      by (by rewrite E3).
    eapply rpc_update_events_gives_away_error; [done|done| | |exact Hb].
    + rewrite Hs2. exact Hrb.
    + rewrite Ha2, Hauth. by rewrite Hown.
Qed.

(** C1.  Accept by the recipient of a request from another user, each
    owning the event the request names for them, from any card of the
    request: the handler never ends with its success notification.
    Either the write of the status fails and the store is as it was, or
    the request becomes ACCEPTED and the handler ends with "Failed to
    swap events": the policy passes over the requester's event and
    rejects the write that would hand the recipient's event over, so
    every event keeps its owner and its status. *)
Theorem accept_between_users_fails w requestId r ra rb request t w' :
  auth w = Some (swap_requests.recipient_id r) →
  tbl_swap_requests (store w) !! requestId = Some r →
  tbl_events (store w) !! swap_requests.requester_event_id r = Some ra →
  tbl_events (store w) !! swap_requests.recipient_event_id r = Some rb →
  events.user_id ra = swap_requests.requester_id r →
  events.user_id rb = swap_requests.recipient_id r →
  swap_requests.requester_id r ≠ swap_requests.recipient_id r →
  card_of requestId r request →
  run B (Requests.handleAcceptSwap request) w = (t, w') →
  (t = toast_error "Failed to accept swap" ∧ store w' = store w)
  ∨ (t = toast_error "Failed to swap events"
     ∧ request_status (store w') requestId = Some "ACCEPTED"
     ∧ tbl_events (store w') = tbl_events (store w)).
Proof.
  intros Hauth Hr Hra Hrb Howna Hownb Hne Hcard. pose proof Hcard as (Hid & _).
  simpl. rewrite Hid.
  destruct (rpc B _ w) as [[] w1] eqn:E1; simpl.
  { intros [= <- <-]. left. by apply rpc_failed in E1 as (-> & _). }
  apply (rpc_update_swap_requests _ _ _ r) in E1 as (Hev1 & Ha1 & Hreq1); [|done..].
  destruct (rpc B _ w1) as [e2 w2] eqn:E2; simpl.
  destruct (rpc B _ w2) as [e3 w3] eqn:E3; simpl.
  assert (∀ ra', tbl_events (store w1) !! swap_requests.requester_event_id r = Some ra' →
                 events.user_id ra' ≠ swap_requests.recipient_id r) as Hforeign.
  { rewrite Hev1, Hra. intros ? [= <-]. congruence. }
  assert (auth w1 = Some (swap_requests.recipient_id r)) as Hauth1 by congruence.
  pose proof (accept_event_writes w1 requestId r request Hauth1 Hne Hforeign Hcard
                _ _ _ _ E2 E3) as [Hs3 He3].
  rewrite (He3 rb), orb_true_r by (by rewrite ?Hev1).
  intros [= <- <-]. right. split; [done|].
  unfold request_status. rewrite Hs3, Hreq1, Hev1, lookup_insert_eq. done.
Qed.

(** C4.  Reject by the recipient of a request whose requester's event
    belongs to another user, from any card of the request: either the
    write of the status fails and the store is as it was, or the
    request becomes REJECTED; in both cases the requester's event is
    the row it was, so an event that was SWAP_PENDING stays
    SWAP_PENDING, whatever the handler reports. *)
Theorem reject_leaves_requester_locked w requestId r ra request t w' :
  auth w = Some (swap_requests.recipient_id r) →
  tbl_swap_requests (store w) !! requestId = Some r →
  tbl_events (store w) !! swap_requests.requester_event_id r = Some ra →
  events.user_id ra ≠ swap_requests.recipient_id r →
  Requests.id request = requestId →
  run B (Requests.handleRejectSwap request) w = (t, w') →
  ((t = toast_error "Failed to reject swap" ∧ store w' = store w)
   ∨ request_status (store w') requestId = Some "REJECTED")
  ∧ tbl_events (store w') !! swap_requests.requester_event_id r = Some ra.
Proof.
  intros Hauth Hr Hra Hforeign Hid Hrun. split.
  - revert Hrun. simpl. rewrite Hid.
    destruct (rpc B _ w) as [[] w1] eqn:E1; simpl.
    { intros [= <- <-]. left. by apply rpc_failed in E1 as (-> & _). }
    apply (rpc_update_swap_requests _ _ _ r) in E1 as (Hev1 & Ha1 & Hreq1); [|done..].
    destruct (rpc B _ w1) as [e2 w2] eqn:E2; simpl.
    assert (tbl_swap_requests (store w2) = tbl_swap_requests (store w1)) as Hreq2.
    { destruct e2.
      - by apply rpc_failed in E2 as (-> & _).
      - by apply rpc_admitted in E2 as ((-> & _)%exec_update_events & _). }
    intros Hrun. right.
    assert (w' = w2) as -> by (destruct e2; by injection Hrun).
    unfold request_status. by rewrite Hreq2, Hreq1, lookup_insert_eq.
  - replace w' with (run B (Requests.handleRejectSwap request) w).2 by (by rewrite Hrun).
    apply run_keeps_foreign_events; [done|]. rewrite Hauth. congruence.
Qed.

(** C10.  When the write of the request's status fails, Accept and
    Reject end there with their error: that call is the only one made
    and the store, events included, is as it was. *)
Theorem status_write_failure_stops request w :
  ((rpc B (UPDATE_swap_requests "ACCEPTED" (Requests.id request)) w).1 = true →
   ∃ w', run B (Requests.handleAcceptSwap request) w
           = (toast_error "Failed to accept swap", w')
         ∧ store w' = store w
         ∧ issued w'
           = (issued w ++ [UPDATE_swap_requests "ACCEPTED" (Requests.id request)])%list)
  ∧ ((rpc B (UPDATE_swap_requests "REJECTED" (Requests.id request)) w).1 = true →
     ∃ w', run B (Requests.handleRejectSwap request) w
             = (toast_error "Failed to reject swap", w')
           ∧ store w' = store w
           ∧ issued w'
             = (issued w ++ [UPDATE_swap_requests "REJECTED" (Requests.id request)])%list).
Proof.
  split; intros Hfail; simpl;
    destruct (rpc B _ w) as [[] w1] eqn:E; simpl in Hfail; try done;
    apply rpc_failed in E as (Hstore & Hlog & _); eauto.
Qed.

End inbox.

(** B opens the inbox after A's proposal: the card of R names E2 and,
    for E1, which the policies hide from B, the placeholder. *)
Example scenario_inbox :
  Scenario.card
  = {| Requests.id := "R";
       Requests.status := "PENDING";
       Requests.requester_id := "A";
       Requests.recipient_id := "B";
       Requests.requester_event := Requests.placeholder;
       Requests.recipient_event :=
         {| Requests.event_id := "E2";
            Requests.event_title := "Review";
            Requests.event_start_time := Some 840%Z;
            Requests.event_end_time := Some 900%Z |} |}
  ∧ run Scenario.steady (Requests.handleAcceptSwap Scenario.card) Scenario.inbox
    = (toast_error "Failed to swap events", Scenario.accepted)
  ∧ run Scenario.steady (Requests.handleRejectSwap Scenario.card) Scenario.inbox
    = (toast_error "Failed to reset event status", Scenario.rejected)
  ∧ tbl_events (store Scenario.rejected) = tbl_events (store Scenario.inbox)
  ∧ request_status (store Scenario.rejected) "R" = Some "REJECTED".
Proof. vm_compute. repeat split; reflexivity. Qed.

(** The same from the card B's inbox read between the two calls of A's
    proposal, which names E1: the reset passes over E1 without an
    error and the handler reports success. *)
Example scenario_early_card :
  Scenario.requested ∈ action_instants Scenario.steady Scenario.proposal Scenario.listed
  ∧ Requests.event_id (Requests.requester_event Scenario.early_card) = "E1"
  ∧ Requests.renders Scenario.early_card = true
  ∧ (run Scenario.steady (Requests.handleRejectSwap Scenario.early_card) Scenario.inbox).1
    = toast_success "Swap rejected. Events are now available again."
  ∧ event_status
      (store (run Scenario.steady (Requests.handleRejectSwap Scenario.early_card)
                Scenario.inbox).2) "E1"
    = Some "SWAP_PENDING"
  ∧ (run Scenario.steady (Requests.handleAcceptSwap Scenario.early_card) Scenario.inbox).1
    = toast_error "Failed to swap events"
  ∧ tbl_events
      (store (run Scenario.steady (Requests.handleAcceptSwap Scenario.early_card)
                Scenario.inbox).2)
    = tbl_events (store Scenario.inbox).
Proof. vm_compute. split; [right; left|]. repeat split; reflexivity. Qed.

(** B accepts R: R is ACCEPTED, E1 is still A's and E2 still B's. *)
Lemma accept_between_users_fails_witness :
  (toast_error "Failed to swap events" = toast_error "Failed to accept swap"
   ∧ store Scenario.accepted = store Scenario.inbox)
  ∨ (toast_error "Failed to swap events" = toast_error "Failed to swap events"
     ∧ request_status (store Scenario.accepted) "R" = Some "ACCEPTED"
     ∧ tbl_events (store Scenario.accepted) = tbl_events (store Scenario.inbox)).
Proof.
  apply (accept_between_users_fails Scenario.steady Scenario.inbox "R" Scenario.R
           Scenario.E1_pending Scenario.E2 Scenario.card).
  - reflexivity.
  - vm_compute. reflexivity.
  - vm_compute. reflexivity.
  - vm_compute. reflexivity.
  - reflexivity.
  - reflexivity.
  - vm_compute. discriminate.
  - apply enrich_card_of.
  - vm_compute. reflexivity.
Defined.

(** B rejects R: R is REJECTED and E1 is still SWAP_PENDING. *)
Lemma reject_leaves_requester_locked_witness :
  ((toast_error "Failed to reset event status" = toast_error "Failed to reject swap"
    ∧ store Scenario.rejected = store Scenario.inbox)
   ∨ request_status (store Scenario.rejected) "R" = Some "REJECTED")
  ∧ tbl_events (store Scenario.rejected) !! "E1" = Some Scenario.E1_pending.
Proof.
  apply (reject_leaves_requester_locked Scenario.steady Scenario.inbox "R" Scenario.R
           Scenario.E1_pending Scenario.card).
  - reflexivity.
  - vm_compute. reflexivity.
  - vm_compute. reflexivity.
  - vm_compute. discriminate.
  - reflexivity.
  - vm_compute. reflexivity.
Defined.

(** B accepts, or rejects, R while the backend is unreachable. *)
Lemma status_write_failure_stops_witness :
  (∃ w', run Scenario.dropped (Requests.handleAcceptSwap Scenario.card) Scenario.inbox
           = (toast_error "Failed to accept swap", w')
         ∧ store w' = store Scenario.inbox
         ∧ issued w' = (issued Scenario.inbox ++ [UPDATE_swap_requests "ACCEPTED" "R"])%list)
  ∧ (∃ w', run Scenario.dropped (Requests.handleRejectSwap Scenario.card) Scenario.inbox
             = (toast_error "Failed to reject swap", w')
           ∧ store w' = store Scenario.inbox
           ∧ issued w' = (issued Scenario.inbox ++ [UPDATE_swap_requests "REJECTED" "R"])%list).
Proof.
  destruct (status_write_failure_stops Scenario.dropped Scenario.card Scenario.inbox)
    as [Haccept Hreject].
  split; [apply Haccept | apply Hreject]; vm_compute; reflexivity.
Defined.

(** ** A second accept *)

Section resolution.
Context (B : Backend).

Lemma run_auth {A} (p : prog A) w : auth (run B p w).2 = auth w.
Proof.
  revert w. induction p as [a|c k IH]; intros w; simpl; [done|].
  pose proof (rpc_auth B c w) as Hauth.
  destruct (rpc B c w) as [error w1]. simpl in *. by rewrite IH.
Qed.

(** What [handleAcceptSwap] leaves when the recipient runs it for a
    request from someone else: at most the status of the request. *)
Lemma handleAcceptSwap_between_users w requestId r request t w' :
  auth w = Some (swap_requests.recipient_id r) →
  tbl_swap_requests (store w) !! requestId = Some r →
  swap_requests.requester_id r ≠ swap_requests.recipient_id r →
  (∀ ra, tbl_events (store w) !! swap_requests.requester_event_id r = Some ra →
         events.user_id ra ≠ swap_requests.recipient_id r) →
  card_of requestId r request →
  run B (Requests.handleAcceptSwap request) w = (t, w') →
  (t = toast_error "Failed to accept swap" ∧ store w' = store w)
  ∨ (t ≠ toast_error "Failed to accept swap"
     ∧ tbl_events (store w') = tbl_events (store w)
     ∧ tbl_swap_requests (store w')
       = <[requestId := set_request_status "ACCEPTED" r]> (tbl_swap_requests (store w))).
Proof.
  intros Hauth Hr Hne Hforeign Hcard. pose proof Hcard as (Hid & _).
  simpl. rewrite Hid.
  destruct (rpc B _ w) as [[] w1] eqn:E1; simpl.
  { intros [= <- <-]. left. by apply rpc_failed in E1 as (-> & _). }
  apply (rpc_update_swap_requests _ _ _ _ r) in E1 as (Hev1 & Ha1 & Hreq1); [|done..].
  destruct (rpc B _ w1) as [e2 w2] eqn:E2; simpl.
  destruct (rpc B _ w2) as [e3 w3] eqn:E3; simpl.
  assert (∀ ra', tbl_events (store w1) !! swap_requests.requester_event_id r = Some ra' →
                 events.user_id ra' ≠ swap_requests.recipient_id r) as Hforeign1.
  { by rewrite Hev1. }
  assert (auth w1 = Some (swap_requests.recipient_id r)) as Hauth1 by congruence.
  pose proof (accept_event_writes B w1 requestId r request Hauth1 Hne Hforeign1 Hcard
                _ _ _ _ E2 E3) as [Hs3 _].
  intros Hrun. right.
  assert (w' = w3) as -> by (destruct (e2 || e3); by injection Hrun).
  rewrite Hs3. split; [|done]. destruct (e2 || e3); by injection Hrun as <-.
Qed.

(** C5, as the page has it.  A card read as resolved shows no Accept
    button, so nothing is written for it.  The handler itself does not
    read the stored status: it writes ACCEPTED over whatever is there.
    Between two users, once the status write of an Accept by the
    recipient has gone through, the request is ACCEPTED and a second
    Accept from the same card leaves the store, owners and statuses
    included, as the first one left it, whatever the backend answers. *)
Theorem accept_again_changes_nothing w requestId r request t1 w1 t2 w2 :
  auth w = Some (swap_requests.recipient_id r) →
  tbl_swap_requests (store w) !! requestId = Some r →
  swap_requests.requester_id r ≠ swap_requests.recipient_id r →
  (∀ ra, tbl_events (store w) !! swap_requests.requester_event_id r = Some ra →
         events.user_id ra ≠ swap_requests.recipient_id r) →
  card_of requestId r request →
  run B (Requests.handleAcceptSwap request) w = (t1, w1) →
  t1 ≠ toast_error "Failed to accept swap" →
  run B (Requests.handleAcceptSwap request) w1 = (t2, w2) →
  request_status (store w1) requestId = Some "ACCEPTED"
  ∧ store w2 = store w1
  ∧ ∀ stale w0,
      Requests.status stale ≠ "PENDING" →
      click B (Requests.acceptButton stale) w0 = (None, w0).
Proof.
  intros Hauth Hr Hne Hforeign Hcard Hfirst Hwent Hsecond.
  pose proof (run_auth (Requests.handleAcceptSwap request) w) as Hauth1.
  rewrite Hfirst in Hauth1. simpl in Hauth1.
  destruct (handleAcceptSwap_between_users _ requestId r _ _ _
              Hauth Hr Hne Hforeign Hcard Hfirst)
    as [[-> _]|(_ & Hev1 & Hreq1)]; [done|].
  assert (tbl_swap_requests (store w1) !! requestId
          = Some (set_request_status "ACCEPTED" r)) as Hr1.
  { by rewrite Hreq1, lookup_insert_eq. }
  split; [|split].
  - unfold request_status. by rewrite Hr1.
  - destruct (handleAcceptSwap_between_users w1 requestId
                (set_request_status "ACCEPTED" r) request t2 w2)
      as [[_ ->]|(_ & Hev2 & Hreq2)]; try done.
    + by rewrite Hauth1.
    + simpl. by rewrite Hev1.
    + apply db_eq; [done|]. rewrite Hreq2. by apply insert_id.
  - intros stale w0 Hstatus. unfold Requests.acceptButton.
    by rewrite (proj2 (String.eqb_neq _ _) Hstatus).
Qed.

(** What is left once the first of the three calls of
    [handleAcceptSwap] has gone through and an event write has failed:
    "Failed to swap events", the request as the status write left it,
    and three calls made. *)
Lemma handleAcceptSwap_half_way request w w1 w2 w3 e1 e2 :
  rpc B (UPDATE_swap_requests "ACCEPTED" (Requests.id request)) w = (false, w1) →
  rpc B (UPDATE_events {| set_user_id := Some (Requests.recipient_id request);
                          set_status := Some "BUSY" |}
                       [Requests.event_id (Requests.requester_event request)]) w1
    = (e1, w2) →
  rpc B (UPDATE_events {| set_user_id := Some (Requests.requester_id request);
                          set_status := Some "BUSY" |}
                       [Requests.event_id (Requests.recipient_event request)]) w2
    = (e2, w3) →
  e1 || e2 = true →
  run B (Requests.handleAcceptSwap request) w = (toast_error "Failed to swap events", w3)
  ∧ tbl_swap_requests (store w3)
    = alter (update_request (auth w) "ACCEPTED") (Requests.id request)
        (tbl_swap_requests (store w))
  ∧ List.length (issued w3) = 3 + List.length (issued w).
Proof.
  intros H1 H2 H3 Herr. split; [|split].
  - simpl. rewrite H1. simpl. rewrite H2. simpl. rewrite H3. simpl. by rewrite Herr.
  - apply rpc_admitted in H1 as ((_ & Hreq1)%exec_update_swap_requests & _).
    assert (∀ p ids wa err wb, rpc B (UPDATE_events p ids) wa = (err, wb) →
              tbl_swap_requests (store wb) = tbl_swap_requests (store wa)) as Hkeep.
    { intros p ids wa [] wb E.
      - by apply rpc_failed in E as (-> & _).
      - by apply rpc_admitted in E as ((-> & _)%exec_update_events & _). }
    by rewrite (Hkeep _ _ _ _ _ H3), (Hkeep _ _ _ _ _ H2).
  - apply rpc_length in H1, H2, H3. lia.
Qed.

(** X4.  Once the write of ACCEPTED by the recipient is admitted,
    [handleAcceptSwap] makes both event writes whatever the first one
    answers, and when either fails it ends with "Failed to swap events"
    while the request stays ACCEPTED: three calls were made and none is
    undone. *)
Theorem accept_keeps_status_when_swap_fails request w w1 w2 w3 e1 e2 :
  (∀ r, tbl_swap_requests (store w) !! Requests.id request = Some r →
        auth w = Some (swap_requests.recipient_id r)) →
  rpc B (UPDATE_swap_requests "ACCEPTED" (Requests.id request)) w = (false, w1) →
  rpc B (UPDATE_events {| set_user_id := Some (Requests.recipient_id request);
                          set_status := Some "BUSY" |}
                       [Requests.event_id (Requests.requester_event request)]) w1
    = (e1, w2) →
  rpc B (UPDATE_events {| set_user_id := Some (Requests.requester_id request);
                          set_status := Some "BUSY" |}
                       [Requests.event_id (Requests.recipient_event request)]) w2
    = (e2, w3) →
  e1 || e2 = true →
  run B (Requests.handleAcceptSwap request) w = (toast_error "Failed to swap events", w3)
  ∧ tbl_swap_requests (store w3)
    = alter (set_request_status "ACCEPTED") (Requests.id request)
        (tbl_swap_requests (store w))
  ∧ List.length (issued w3) = 3 + List.length (issued w).
Proof.
  intros Hrecipient H1 H2 H3 Herr.
  destruct (handleAcceptSwap_half_way request w w1 w2 w3 e1 e2) as (Hrun & Hreq & Hlen);
    [done..|].
  split; [done|]. split; [|done]. rewrite Hreq.
  apply map_eq. intros i. rewrite !lookup_alter. case_decide as Hi; [subst i|done].
  destruct (tbl_swap_requests (store w) !! Requests.id request) as [r|] eqn:Hr; [|done].
  simpl. by rewrite update_request_own by eauto.
Qed.

(** X6.  When the write of REJECTED by the recipient is admitted and
    the reset of the two statuses fails, [handleRejectSwap] ends with
    "Failed to reset event status": the request is REJECTED, every
    event is as it was, and the card read again from the store shows
    neither button, so the inbox offers no way to try again. *)
Theorem reject_leaves_events_locked requestId r w w1 :
  auth w = Some (swap_requests.recipient_id r) →
  tbl_swap_requests (store w) !! requestId = Some r →
  rpc B (UPDATE_swap_requests "REJECTED" requestId) w = (false, w1) →
  (rpc B (UPDATE_events {| set_user_id := None; set_status := Some "SWAPPABLE" |}
            [Requests.event_id (Requests.requester_event (Requests.enrich (store w) requestId r));
             Requests.event_id (Requests.recipient_event (Requests.enrich (store w) requestId r))])
       w1).1 = true →
  ∃ w',
    run B (Requests.handleRejectSwap (Requests.enrich (store w) requestId r)) w
      = (toast_error "Failed to reset event status", w')
    ∧ request_status (store w') requestId = Some "REJECTED"
    ∧ tbl_events (store w') = tbl_events (store w)
    ∧ ∀ r', tbl_swap_requests (store w') !! requestId = Some r' →
            Requests.acceptButton (Requests.enrich (store w') requestId r') = None
            ∧ Requests.rejectButton (Requests.enrich (store w') requestId r') = None.
Proof.
  intros Hauth Hr H1 Hfail. simpl. simpl in H1. rewrite H1. simpl.
  destruct (rpc B _ w1) as [[] w2] eqn:E2; simpl in Hfail; [|done].
  exists w2. split; [done|].
  apply (rpc_update_swap_requests _ _ _ _ r) in H1 as (Hev1 & _ & Hreq1); [|done..].
  apply rpc_failed in E2 as (Hstore & _).
  unfold request_status. rewrite Hstore, Hreq1, Hev1, lookup_insert_eq. simpl.
  split; [done|]. split; [done|]. by intros r' [= <-].
Qed.

End resolution.

(** B accepts R twice from the card of the inbox. *)
Lemma accept_again_changes_nothing_witness :
  request_status (store Scenario.accepted) "R" = Some "ACCEPTED"
  ∧ store (run Scenario.steady (Requests.handleAcceptSwap Scenario.card)
             Scenario.accepted).2
    = store Scenario.accepted
  ∧ ∀ stale w0,
      Requests.status stale ≠ "PENDING" →
      click Scenario.steady (Requests.acceptButton stale) w0 = (None, w0).
Proof.
  apply (accept_again_changes_nothing Scenario.steady Scenario.inbox "R" Scenario.R
           Scenario.card (toast_error "Failed to swap events") Scenario.accepted
           (run Scenario.steady (Requests.handleAcceptSwap Scenario.card)
              Scenario.accepted).1).
  - reflexivity.
  - vm_compute. reflexivity.
  - vm_compute. discriminate.
  - vm_compute. intros ra [= <-]. discriminate.
  - apply enrich_card_of.
  - vm_compute. reflexivity.
  - discriminate.
  - apply surjective_pairing.
Defined.

(** C5 fails as worded.  A's proposal lost its second call, so R is
    pending on two events still on offer and B's inbox shows both.  B
    rejects R in one window: R is REJECTED.  From the card still shown
    in another window B then accepts: the handler does not stop at the
    resolved request and does not leave things as they were, it writes
    ACCEPTED over REJECTED before it ends with "Failed to swap events". *)
Lemma stale_accept_overrides_rejection :
  Requests.renders Faults.card = true
  ∧ Requests.acceptButton Faults.card = Some (Requests.handleAcceptSwap Faults.card)
  ∧ request_status (store Faults.declined) "R" = Some "REJECTED"
  ∧ auth Faults.declined = Some "B"
  ∧ run Scenario.steady (Requests.handleAcceptSwap Faults.card) Faults.declined
    = (toast_error "Failed to swap events", Faults.overridden)
  ∧ request_status (store Faults.overridden) "R" = Some "ACCEPTED"
  ∧ store Faults.overridden ≠ store Faults.declined.
Proof. vm_compute. repeat split; try reflexivity. discriminate. Qed.

(** B's Accept with the first event write turned down: R is ACCEPTED
    all the same and three calls were made. *)
Lemma accept_keeps_status_when_swap_fails_witness :
  run (Faults.refusing 7) (Requests.handleAcceptSwap Scenario.card) Scenario.inbox
    = (toast_error "Failed to swap events", Faults.accepted_in_name)
  ∧ tbl_swap_requests (store Faults.accepted_in_name)
    = alter (set_request_status "ACCEPTED") "R" (tbl_swap_requests (store Scenario.inbox))
  ∧ List.length (issued Faults.accepted_in_name)
    = 3 + List.length (issued Scenario.inbox).
Proof.
  pose (w1 := (rpc (Faults.refusing 7) (UPDATE_swap_requests "ACCEPTED" "R")
                 Scenario.inbox).2).
  pose (w2 := (rpc (Faults.refusing 7)
                 (UPDATE_events {| set_user_id := Some "B"; set_status := Some "BUSY" |}
                                [""]) w1).2).
  apply (accept_keeps_status_when_swap_fails (Faults.refusing 7) Scenario.card
           Scenario.inbox w1 w2 Faults.accepted_in_name true true).
  - vm_compute. intros r [= <-]. reflexivity.
  - vm_compute. reflexivity.
  - vm_compute. reflexivity.
  - vm_compute. reflexivity.
  - reflexivity.
Defined.

(** B's Reject with the reset turned down: R is REJECTED, E1 stays
    SWAP_PENDING. *)
Lemma reject_leaves_events_locked_witness :
  ∃ w',
    run (Faults.refusing 7) (Requests.handleRejectSwap Scenario.card) Scenario.inbox
      = (toast_error "Failed to reset event status", w')
    ∧ request_status (store w') "R" = Some "REJECTED"
    ∧ tbl_events (store w') = tbl_events (store Scenario.inbox)
    ∧ ∀ r', tbl_swap_requests (store w') !! "R" = Some r' →
            Requests.acceptButton (Requests.enrich (store w') "R" r') = None
            ∧ Requests.rejectButton (Requests.enrich (store w') "R" r') = None.
Proof.
  apply (reject_leaves_events_locked (Faults.refusing 7) "R" Scenario.R Scenario.inbox
           (rpc (Faults.refusing 7) (UPDATE_swap_requests "REJECTED" "R")
              Scenario.inbox).2).
  - reflexivity.
  - vm_compute. reflexivity.
  - vm_compute. reflexivity.
  - vm_compute. reflexivity.
Defined.

(** ** The marketplace: proposing a swap *)

Lemma fetchSwappableSlots_elem db user slot :
  slot ∈ Marketplace.fetchSwappableSlots db user ↔
  ∃ r, tbl_events db !! Marketplace.id slot = Some r
       ∧ slot = Marketplace.Event_of (Marketplace.id slot, r)
       ∧ events.status r = "SWAPPABLE" ∧ events.user_id r ≠ user.
Proof.
  unfold Marketplace.fetchSwappableSlots.
  rewrite merge_sort_Permutation, list_elem_of_fmap. split.
  - intros ([i r] & -> & [[Hs Hu] Hin%elem_of_map_to_list]%list_elem_of_filter).
    simpl in *. eauto.
  - intros (r & Hr & Hslot & Hs & Hu). exists (Marketplace.id slot, r).
    split; [done|]. apply list_elem_of_filter. split; [done|].
    by apply elem_of_map_to_list.
Qed.

Lemma fetchMySwappableSlots_elem db user slot :
  slot ∈ Marketplace.fetchMySwappableSlots db user ↔
  ∃ r, tbl_events db !! Marketplace.id slot = Some r
       ∧ slot = Marketplace.Event_of (Marketplace.id slot, r)
       ∧ events.user_id r = user ∧ events.status r = "SWAPPABLE".
Proof.
  unfold Marketplace.fetchMySwappableSlots.
  rewrite merge_sort_Permutation, list_elem_of_fmap. split.
  - intros ([i r] & -> & [[Hs Hu] Hin%elem_of_map_to_list]%list_elem_of_filter).
    simpl in *. eauto.
  - intros (r & Hr & Hslot & Hs & Hu). exists (Marketplace.id slot, r).
    split; [done|]. apply list_elem_of_filter. split; [done|].
    by apply elem_of_map_to_list.
Qed.

Section marketplace.
Context (B : Backend).

Lemma requestSwap_success user selectedSlot myEventId w m w' :
  run B (Marketplace.requestSwap user selectedSlot myEventId) w
    = (Some (toast_success m), w') →
  ∃ uid slot w1,
    user = Some uid ∧ selectedSlot = Some slot
    ∧ rpc B (INSERT_swap_requests (proposal_row uid slot myEventId)) w = (false, w1)
    ∧ rpc B (UPDATE_events {| set_user_id := None; set_status := Some "SWAP_PENDING" |}
                           [myEventId; Marketplace.id slot]) w1 = (false, w').
Proof.
  destruct user as [uid|], selectedSlot as [slot|]; simpl; try done.
  fold (proposal_row uid slot myEventId).
  destruct (rpc B _ w) as [[] w1] eqn:E1; simpl; [intros [=]|].
  destruct (rpc B _ w1) as [[] w2] eqn:E2; simpl; intros [= <- <-].
  exists uid, slot, w1. eauto.
Qed.

(** What a proposal that ended with its success notification has done:
    the request is in, under a new identifier, and of the two events
    named the caller's own have the status SWAP_PENDING and the others
    are as they were. *)
Lemma requestSwap_rows uid slot myEventId w m w' :
  run B (Marketplace.requestSwap (Some uid) (Some slot) myEventId) w
    = (Some (toast_success m), w') →
  auth w = Some uid
  ∧ tbl_swap_requests (store w) !! gen_random_uuid B (List.length (issued w)) = None
  ∧ tbl_swap_requests (store w')
    = <[gen_random_uuid B (List.length (issued w)) := proposal_row uid slot myEventId]>
        (tbl_swap_requests (store w))
  ∧ ∀ i, tbl_events (store w') !! i =
         if decide (i ∈ [myEventId; Marketplace.id slot])
         then update_event (Some uid)
                {| set_user_id := None; set_status := Some "SWAP_PENDING" |}
              <$> tbl_events (store w) !! i
         else tbl_events (store w) !! i.
Proof.
  intros (? & ? & w1 & [= <-] & [= <-] & H1 & H2)%requestSwap_success.
  apply rpc_admitted in H1
    as ((Hfresh & Hev1 & Hreq1 & Hauth)%exec_insert_swap_requests & _ & Hauth1).
  apply rpc_admitted in H2 as ((Hreq2 & Hev2 & _)%exec_update_events & _).
  simpl in Hauth. split; [done|]. split; [done|]. split; [by rewrite Hreq2, Hreq1|].
  intros i. by rewrite Hev2, Hev1, Hauth1, Hauth.
Qed.

(** C3.  Propose on two SWAPPABLE events owned by two different users,
    the caller being the owner of the first and the selected slot the
    second as the store holds it: when the handler ends with its
    success notification, the requests are those there were plus one
    row under a new identifier, PENDING, naming the two events and
    their owners, and the caller's event is SWAP_PENDING; the other
    user's event, which the policy keeps the caller from writing, is
    the row it was, still SWAPPABLE. *)
Theorem propose_locks_own_event_only w a b ra rb m w' :
  tbl_events (store w) !! a = Some ra →
  tbl_events (store w) !! b = Some rb →
  events.status ra = "SWAPPABLE" →
  events.status rb = "SWAPPABLE" →
  events.user_id ra ≠ events.user_id rb →
  run B (Marketplace.requestSwap (Some (events.user_id ra))
           (Some (Marketplace.Event_of (b, rb))) a) w
    = (Some (toast_success m), w') →
  event_status (store w') a = Some "SWAP_PENDING"
  ∧ tbl_events (store w') !! b = Some rb
  ∧ event_status (store w') b = Some "SWAPPABLE"
  ∧ ∃ requestId,
      tbl_swap_requests (store w) !! requestId = None
      ∧ tbl_swap_requests (store w')
        = <[requestId := {| swap_requests.requester_id := events.user_id ra;
                            swap_requests.requester_event_id := a;
                            swap_requests.recipient_id := events.user_id rb;
                            swap_requests.recipient_event_id := b;
                            swap_requests.status := "PENDING" |}]>
            (tbl_swap_requests (store w)).
Proof.
  intros Ha Hb Hsa Hsb Howners (Hauth & Hfresh & Hreq & Hev)%requestSwap_rows.
  simpl in Hev.
  assert (tbl_events (store w') !! b = Some rb) as Hb'.
  { rewrite Hev. rewrite decide_True by (right; left). rewrite Hb. simpl.
    rewrite update_event_foreign; [done|congruence]. }
  unfold event_status. rewrite Hb', Hev. rewrite decide_True by left.
  rewrite Ha. simpl. rewrite update_event_own by done. simpl.
  split; [done|]. split; [done|]. split; [by rewrite Hsb|]. eauto.
Qed.

(** C2, as the pages have it.  The two lists of the marketplace hold
    only events that were SWAPPABLE in the store they were read from,
    the caller's own on one side and other users' on the other; the
    store the proposal is committed to is not asked again.  When that
    store turns the insert of the request down, the handler ends with
    an error and the store is as it was. *)
Theorem propose_checks_on_read db user slot mine w :
  slot ∈ Marketplace.fetchSwappableSlots db user →
  mine ∈ Marketplace.fetchMySwappableSlots db user →
  (rpc B (INSERT_swap_requests (proposal_row user slot (Marketplace.id mine))) w).1 = true →
  (event_status db (Marketplace.id mine) = Some "SWAPPABLE"
   ∧ event_status db (Marketplace.id slot) = Some "SWAPPABLE"
   ∧ owner db (Marketplace.id mine) = Some user
   ∧ owner db (Marketplace.id slot) = Some (Marketplace.user_id slot)
   ∧ Marketplace.user_id slot ≠ user)
  ∧ ∃ w',
      run B (Marketplace.requestSwap (Some user) (Some slot) (Marketplace.id mine)) w
        = (Some (toast_error "Failed to create swap request"), w')
      ∧ store w' = store w.
Proof.
  intros (rs & Hrs & Hslot & Hss & Hus)%fetchSwappableSlots_elem
         (rm & Hrm & Hmine & Hum & Hsm)%fetchMySwappableSlots_elem Hrefused.
  split.
  - unfold event_status, owner. rewrite Hrs, Hrm; simpl.
    assert (Marketplace.user_id slot = events.user_id rs) as -> by (by rewrite Hslot).
    by rewrite Hss, Hsm, Hum.
  - simpl. fold (proposal_row user slot (Marketplace.id mine)).
    destruct (rpc B _ w) as [[] w1] eqn:E1; simpl in *; [|done].
    exists w1. split; [done|]. by apply rpc_failed in E1 as (-> & _).
Qed.

(** X3.  When the insert of the request is admitted and the write of
    the two statuses fails, [requestSwap] ends with "Failed to update
    event status": the events are as they were and the request stays in
    the store as PENDING; nothing takes it back. *)
Theorem propose_keeps_request_when_lock_fails uid slot myEventId w w1 :
  rpc B (INSERT_swap_requests (proposal_row uid slot myEventId)) w = (false, w1) →
  (rpc B (UPDATE_events {| set_user_id := None; set_status := Some "SWAP_PENDING" |}
                        [myEventId; Marketplace.id slot]) w1).1 = true →
  ∃ w' requestId,
    run B (Marketplace.requestSwap (Some uid) (Some slot) myEventId) w
      = (Some (toast_error "Failed to update event status"), w')
    ∧ tbl_events (store w') = tbl_events (store w)
    ∧ tbl_swap_requests (store w) !! requestId = None
    ∧ tbl_swap_requests (store w')
      = <[requestId := proposal_row uid slot myEventId]> (tbl_swap_requests (store w)).
Proof.
  intros Hinsert Hlock. simpl. fold (proposal_row uid slot myEventId).
  rewrite Hinsert. simpl.
  destruct (rpc B _ w1) as [[] w2] eqn:E2; simpl in Hlock; [|done].
  apply rpc_admitted in Hinsert
    as ((Hfresh & Hev & Hreq & _)%exec_insert_swap_requests & _).
  apply rpc_failed in E2 as (Hstore & _).
  exists w2, (gen_random_uuid B (List.length (issued w))).
  rewrite Hstore. auto.
Qed.

(** X17.  After a proposal between two different users that ended with
    its success notification, the expressions of the row policies do
    not cover what the workflow does on the other user's event: the
    write of SWAP_PENDING on the recipient's event is made by the
    requester, who does not own it; the requester's event, now
    SWAP_PENDING, satisfies neither SELECT policy for the recipient,
    whose inbox looks it up, nor the UPDATE policy for the writes of
    Accept and Reject; and the row Accept asks to leave in place of the
    recipient's own event is no longer the recipient's. *)
Theorem counterpart_rows_outside_policies w a b ra rb m w' :
  tbl_events (store w) !! a = Some ra →
  tbl_events (store w) !! b = Some rb →
  events.user_id ra ≠ events.user_id rb →
  run B (Marketplace.requestSwap (Some (events.user_id ra))
           (Some (Marketplace.Event_of (b, rb))) a) w
    = (Some (toast_success m), w') →
  ∃ ra' rb',
    tbl_events (store w') !! a = Some ra'
    ∧ tbl_events (store w') !! b = Some rb'
    ∧ policy.events_update (events.user_id ra) rb = false
    ∧ policy.events_select_own (events.user_id rb) ra' = false
    ∧ policy.events_select_swappable (events.user_id rb) ra' = false
    ∧ policy.events_update (events.user_id rb) ra' = false
    ∧ policy.events_update (events.user_id rb)
        (patch_event {| set_user_id := Some (events.user_id ra);
                        set_status := Some "BUSY" |} rb') = false.
Proof.
  intros Ha Hb Howners (Hauth & _ & _ & Hev)%requestSwap_rows. simpl in Hev.
  eexists _, _. split; [|split].
  - rewrite Hev. rewrite decide_True by left. rewrite Ha. simpl.
    by rewrite update_event_own.
  - rewrite Hev. rewrite decide_True by (right; left). rewrite Hb. simpl.
    rewrite update_event_foreign; [done|congruence].
  - unfold policy.events_update, policy.events_select_own,
      policy.events_select_swappable. simpl.
    repeat split; apply bool_decide_eq_false_2; congruence.
Qed.

(** X18.  A proposal made from the two lists of the marketplace, read
    from the store it is committed to, that ends with its success
    notification adds one request that is PENDING, between two
    different users and two different events, each event owned by the
    user the request names for it; and those two events exist. *)
Theorem marketplace_proposal_is_well_formed w user slot mine m w' :
  slot ∈ Marketplace.fetchSwappableSlots (store w) user →
  mine ∈ Marketplace.fetchMySwappableSlots (store w) user →
  run B (Marketplace.requestSwap (Some user) (Some slot) (Marketplace.id mine)) w
    = (Some (toast_success m), w') →
  ∃ requestId r,
    tbl_swap_requests (store w) !! requestId = None
    ∧ tbl_swap_requests (store w') = <[requestId := r]> (tbl_swap_requests (store w))
    ∧ swap_requests.status r = "PENDING"
    ∧ swap_requests.requester_id r ≠ swap_requests.recipient_id r
    ∧ swap_requests.requester_event_id r ≠ swap_requests.recipient_event_id r
    ∧ owner (store w') (swap_requests.requester_event_id r)
      = Some (swap_requests.requester_id r)
    ∧ owner (store w') (swap_requests.recipient_event_id r)
      = Some (swap_requests.recipient_id r).
Proof.
  intros (rs & Hrs & Hslot & Hss & Hus)%fetchSwappableSlots_elem
         (rm & Hrm & Hmine & Hum & Hsm)%fetchMySwappableSlots_elem
         (Hauth & Hfresh & Hreq & Hev)%requestSwap_rows.
  assert (Marketplace.user_id slot = events.user_id rs) as Hslot_owner
    by (by rewrite Hslot).
  exists (gen_random_uuid B (List.length (issued w))),
         (proposal_row user slot (Marketplace.id mine)).
  split; [done|]. split; [done|]. split; [done|]. simpl.
  split; [congruence|]. split.
  - intros Heq. rewrite Heq, Hrs in Hrm. injection Hrm as ->. congruence.
  - unfold owner. rewrite !Hev.
    rewrite decide_True by left. rewrite decide_True by (right; left).
    rewrite Hrm, Hrs. simpl. rewrite Hslot_owner.
    rewrite update_event_own by (by rewrite Hum).
    rewrite update_event_foreign by congruence. simpl. by rewrite Hum.
Qed.

End marketplace.

(** A offers E1 for E2: R is the one new request, E1 is locked and E2
    is still on offer. *)
Lemma propose_locks_own_event_only_witness :
  event_status (store Scenario.proposed) "E1" = Some "SWAP_PENDING"
  ∧ tbl_events (store Scenario.proposed) !! "E2" = Some Scenario.E2
  ∧ event_status (store Scenario.proposed) "E2" = Some "SWAPPABLE"
  ∧ ∃ requestId,
      tbl_swap_requests (store Scenario.listed) !! requestId = None
      ∧ tbl_swap_requests (store Scenario.proposed)
        = <[requestId := Scenario.R]> (tbl_swap_requests (store Scenario.listed)).
Proof.
  apply (propose_locks_own_event_only Scenario.steady Scenario.listed "E1" "E2"
           Scenario.E1 Scenario.E2 "Swap request sent!" Scenario.proposed).
  - vm_compute. reflexivity.
  - vm_compute. reflexivity.
  - reflexivity.
  - reflexivity.
  - vm_compute. discriminate.
  - vm_compute. reflexivity.
Defined.

(** A offers E1 for E2 while the backend is unreachable. *)
Lemma propose_checks_on_read_witness :
  (event_status (store Scenario.listed) "E1" = Some "SWAPPABLE"
   ∧ event_status (store Scenario.listed) "E2" = Some "SWAPPABLE"
   ∧ owner (store Scenario.listed) "E1" = Some "A"
   ∧ owner (store Scenario.listed) "E2" = Some "B"
   ∧ "B" ≠ "A")
  ∧ ∃ w',
      run Scenario.dropped
        (Marketplace.requestSwap (Some "A") (Some (Marketplace.Event_of ("E2", Scenario.E2))) "E1")
        Scenario.listed
      = (Some (toast_error "Failed to create swap request"), w')
      ∧ store w' = store Scenario.listed.
Proof.
  apply (propose_checks_on_read Scenario.dropped (store Scenario.listed) "A"
           (Marketplace.Event_of ("E2", Scenario.E2))
           (Marketplace.Event_of ("E1", Scenario.E1)) Scenario.listed).
  - vm_compute. left.
  - vm_compute. left.
  - vm_compute. reflexivity.
Defined.

(** C2 fails as worded.  B takes E2 back to BUSY after A has read the
    marketplace; A's proposal from the lists read earlier is committed
    all the same: it ends with its success notification, the request
    is created on the BUSY event and E1 goes from SWAPPABLE to
    SWAP_PENDING. *)
Lemma propose_commits_over_busy :
  event_status (store Scenario.withdrawn) "E2" = Some "BUSY"
  ∧ event_status (store Scenario.withdrawn) "E1" = Some "SWAPPABLE"
  ∧ tbl_swap_requests (store Scenario.withdrawn) !! "R" = None
  ∧ run Scenario.steady
      (Marketplace.requestSwap (Some "A") (Some (Marketplace.Event_of ("E2", Scenario.E2))) "E1")
      Scenario.withdrawn
    = (Some (toast_success "Swap request sent!"), Scenario.overtaken)
  ∧ tbl_swap_requests (store Scenario.overtaken) !! "R" = Some Scenario.R
  ∧ event_status (store Scenario.overtaken) "E1" = Some "SWAP_PENDING".
Proof. vm_compute. done. Qed.

(** A's proposal with the second call turned down: R is stored, E1 and
    E2 are still on offer. *)
Lemma propose_keeps_request_when_lock_fails_witness :
  ∃ w' requestId,
    run (Faults.refusing 5)
      (Marketplace.requestSwap (Some "A") (Some (Marketplace.Event_of ("E2", Scenario.E2))) "E1")
      Scenario.listed
    = (Some (toast_error "Failed to update event status"), w')
    ∧ tbl_events (store w') = tbl_events (store Scenario.listed)
    ∧ tbl_swap_requests (store Scenario.listed) !! requestId = None
    ∧ tbl_swap_requests (store w')
      = <[requestId := Scenario.R]> (tbl_swap_requests (store Scenario.listed)).
Proof.
  apply (propose_keeps_request_when_lock_fails (Faults.refusing 5) "A"
           (Marketplace.Event_of ("E2", Scenario.E2)) "E1" Scenario.listed
           (rpc (Faults.refusing 5)
              (INSERT_swap_requests
                 (proposal_row "A" (Marketplace.Event_of ("E2", Scenario.E2)) "E1"))
              Scenario.listed).2).
  - vm_compute. reflexivity.
  - vm_compute. reflexivity.
Defined.

(** A's proposal for E2: B cannot see E1, and neither may write the
    other's slot. *)
Lemma counterpart_rows_outside_policies_witness :
  ∃ ra' rb',
    tbl_events (store Scenario.proposed) !! "E1" = Some ra'
    ∧ tbl_events (store Scenario.proposed) !! "E2" = Some rb'
    ∧ policy.events_update "A" Scenario.E2 = false
    ∧ policy.events_select_own "B" ra' = false
    ∧ policy.events_select_swappable "B" ra' = false
    ∧ policy.events_update "B" ra' = false
    ∧ policy.events_update "B"
        (patch_event {| set_user_id := Some "A"; set_status := Some "BUSY" |} rb') = false.
Proof.
  apply (counterpart_rows_outside_policies Scenario.steady Scenario.listed "E1" "E2"
           Scenario.E1 Scenario.E2 "Swap request sent!" Scenario.proposed).
  - vm_compute. reflexivity.
  - vm_compute. reflexivity.
  - vm_compute. discriminate.
  - vm_compute. reflexivity.
Defined.

(** A's proposal from the lists read at that moment. *)
Lemma marketplace_proposal_is_well_formed_witness :
  ∃ requestId r,
    tbl_swap_requests (store Scenario.listed) !! requestId = None
    ∧ tbl_swap_requests (store Scenario.proposed)
      = <[requestId := r]> (tbl_swap_requests (store Scenario.listed))
    ∧ swap_requests.status r = "PENDING"
    ∧ swap_requests.requester_id r ≠ swap_requests.recipient_id r
    ∧ swap_requests.requester_event_id r ≠ swap_requests.recipient_event_id r
    ∧ owner (store Scenario.proposed) (swap_requests.requester_event_id r)
      = Some (swap_requests.requester_id r)
    ∧ owner (store Scenario.proposed) (swap_requests.recipient_event_id r)
      = Some (swap_requests.recipient_id r).
Proof.
  apply (marketplace_proposal_is_well_formed Scenario.steady Scenario.listed "A"
           (Marketplace.Event_of ("E2", Scenario.E2))
           (Marketplace.Event_of ("E1", Scenario.E1))
           "Swap request sent!" Scenario.proposed).
  - vm_compute. left.
  - vm_compute. left.
  - vm_compute. reflexivity.
Defined.

(** ** What the schema keeps true under every call *)

Lemma events_check_status r :
  events.check r = true → events.status r ∈ ["BUSY"; "SWAPPABLE"; "SWAP_PENDING"].
Proof. apply bool_decide_eq_true_1. Qed.

Lemma swap_requests_check_status r :
  swap_requests.check r = true →
  swap_requests.status r ∈ ["PENDING"; "ACCEPTED"; "REJECTED"].
Proof. apply bool_decide_eq_true_1. Qed.

Lemma exec_statuses_checked uid u c db db' :
  statuses_checked db → exec uid u c db = Some db' → statuses_checked db'.
Proof.
  unfold statuses_checked. intros Hdb E. destruct c as [v|p ids|id|v|s id].
  - pose proof E as (_ & -> & _)%exec_insert_events. simpl in E.
    case_decide; [|done]. destruct (events.check v) eqn:Hv; [|done].
    apply map_Forall_insert_2; [|done]. by apply events_check_status.
  - apply exec_update_events in E as (_ & Hev & _ & Hchecked).
    intros i r. rewrite Hev. case_decide as Hin; [|apply Hdb].
    destruct (tbl_events db !! i) as [r0|] eqn:Hr0; simpl; [|done].
    intros [= <-]. destruct (decide (uid = Some (events.user_id r0))) as [Hown|Hforeign].
    + rewrite update_event_own by done. apply events_check_status.
      by apply (Hchecked i r0).
    + rewrite update_event_foreign by done. by apply (Hdb i).
  - apply exec_delete_events in E as [[-> _]|(_ & _ & _ & -> & _)]; [done|].
    by apply map_Forall_delete.
  - by apply exec_insert_swap_requests in E as (_ & -> & _).
  - by apply exec_update_swap_requests in E as [-> _].
Qed.

Lemma exec_request_statuses_checked uid u c db db' :
  request_statuses_checked db → exec uid u c db = Some db' →
  request_statuses_checked db'.
Proof.
  unfold request_statuses_checked. intros Hdb E. destruct c as [v|p ids|id|v|s id].
  - by apply exec_insert_events in E as (_ & _ & -> & _).
  - by apply exec_update_events in E as (-> & _).
  - apply exec_delete_events in E as [[-> _]|(_ & _ & _ & _ & ->)]; [done|].
    intros i r [Hr _]%map_lookup_filter_Some. by eapply Hdb.
  - pose proof E as (_ & _ & -> & _)%exec_insert_swap_requests. simpl in E.
    case_decide; [|done]. destruct (swap_requests.check v) eqn:Hv; [|done].
    apply map_Forall_insert_2; [|done]. by apply swap_requests_check_status.
  - pose proof E as (_ & ->)%exec_update_swap_requests. simpl in E.
    destruct (malformed [id]); [done|].
    destruct (forallb _ _) eqn:Hall; [|done].
    intros i r. rewrite lookup_alter. case_decide as Hi; [subst i|apply Hdb].
    destruct (tbl_swap_requests db !! id) as [r0|] eqn:Hr0; simpl; [|done].
    intros [= <-]. unfold update_request.
    simpl in Hall. rewrite andb_true_r in Hall.
    destruct (allowed uid policy.swap_requests_update r0); simpl in Hall.
    + by apply swap_requests_check_status.
    + by apply (Hdb id).
Qed.

Lemma exec_referential uid u c db db' :
  referential db → exec uid u c db = Some db' → referential db'.
Proof.
  unfold referential. intros Hdb E. destruct c as [v|p ids|id|v|s id].
  - apply exec_insert_events in E as (_ & Hev & Hreq & _). rewrite Hev, Hreq.
    intros i r Hr. destruct (Hdb i r Hr) as [H1 H2].
    rewrite !lookup_insert_is_Some'. auto.
  - apply exec_update_events in E as (Hreq & Hev & _). rewrite Hreq.
    intros i r Hr. destruct (Hdb i r Hr) as [H1 H2]. rewrite !Hev.
    split; case_decide; rewrite ?fmap_is_Some; done.
  - apply exec_delete_events in E as [[-> _]|(_ & _ & _ & Hev & Hreq)]; [done|].
    rewrite Hev, Hreq. intros i r [Hr Hrefs]%map_lookup_filter_Some.
    destruct (Hdb i r Hr) as [H1 H2]. simpl in Hrefs.
    unfold swap_requests.references in Hrefs.
    rewrite !lookup_delete_ne by (intros ->; apply Hrefs; auto). done.
  - pose proof E as (_ & Hev & Hreq & _)%exec_insert_swap_requests. simpl in E.
    case_decide; [|done]. destruct (_ && _); [|done]. case_decide as Hfk; [|done].
    rewrite Hreq. apply map_Forall_insert_2; [by rewrite Hev|].
    intros i r Hr. rewrite Hev. by apply (Hdb i).
  - apply exec_update_swap_requests in E as (Hev & Hreq). rewrite Hev, Hreq.
    intros i r. rewrite lookup_alter. case_decide as Hi; [subst i|apply Hdb].
    destruct (tbl_swap_requests db !! id) as [r0|] eqn:Hr0; simpl; [|done].
    intros [= <-]. unfold update_request.
    destruct (allowed uid policy.swap_requests_update r0); apply (Hdb id r0 Hr0).
Qed.

Lemma rpc_invariant (P : Database → Prop) B c w :
  (∀ uid u db db', P db → exec uid u c db = Some db' → P db') →
  P (store w) → P (store (rpc B c w).2).
Proof.
  intros Hexec Hw. destruct (rpc B c w) as [[] w'] eqn:E; simpl.
  - by apply rpc_failed in E as (-> & _).
  - apply rpc_admitted in E as (E & _). eauto.
Qed.

Lemma reachable_statuses_checked w : reachable w → statuses_checked (store w).
Proof.
  induction 1 as [|user w _ IH|B a c w _ IH _]; [apply map_Forall_empty|done|].
  apply rpc_invariant; [|done]. intros uid u db db'. apply exec_statuses_checked.
Qed.

Lemma reachable_request_statuses_checked w :
  reachable w → request_statuses_checked (store w).
Proof.
  induction 1 as [|user w _ IH|B a c w _ IH _]; [apply map_Forall_empty|done|].
  apply rpc_invariant; [|done]. intros uid u db db'. apply exec_request_statuses_checked.
Qed.

Lemma reachable_referential w : reachable w → referential (store w).
Proof.
  induction 1 as [|user w _ IH|B a c w _ IH _]; [apply map_Forall_empty|done|].
  apply rpc_invariant; [|done]. intros uid u db db'. apply exec_referential.
Qed.

Lemma referential_no_pending_orphan db : referential db → no_pending_orphan db.
Proof.
  intros Hfk requestId r eventId Hr _ Hrefs.
  destruct (Hfk _ _ Hr) as [H1 H2]. by destruct Hrefs as [<-|<-].
Qed.

(** ** Sessions stay among the reachable worlds *)

Lemma instants_reachable {A} B a (p : prog A) w w' :
  (∀ c, issues p c → action_issues a c) →
  reachable w → w' ∈ instants B p w → reachable w'.
Proof.
  revert w. induction p as [x|c k IH]; intros w Hissues Hw; simpl.
  - by intros ->%list_elem_of_singleton.
  - intros [->|Hin]%elem_of_cons; [done|].
    destruct (rpc B c w) as [error w1] eqn:E.
    apply (IH error w1); [| |done].
    + intros c' Hc'. apply Hissues. by eapply issues_later.
    + replace w1 with (rpc B c w).2 by (by rewrite E).
      eapply reachable_call; [done|]. apply Hissues, issues_now.
Qed.

Lemma action_instants_reachable B a w w' :
  reachable w → w' ∈ action_instants B a w → reachable w'.
Proof.
  intros Hw. destruct a; unfold action_instants; intros Hin.
  - apply elem_of_cons in Hin as [->|Hin]; [done|].
    apply list_elem_of_singleton in Hin as ->. by apply reachable_sign_in.
  - eapply instants_reachable; [|exact Hw|exact Hin]. intros c Hc.
    exact (Hc : action_issues (CreateEvent user formData) c).
  - eapply instants_reachable; [|exact Hw|exact Hin]. intros c Hc.
    exact (Hc : action_issues (ToggleSwappable eventId currentStatus) c).
  - eapply instants_reachable; [|exact Hw|exact Hin]. intros c Hc.
    exact (Hc : action_issues (DeleteEvent eventId) c).
  - eapply instants_reachable; [|exact Hw|exact Hin]. intros c Hc.
    exact (Hc : action_issues (RequestSwap user selectedSlot myEventId) c).
  - eapply instants_reachable; [|exact Hw|exact Hin]. intros c Hc.
    exact (Hc : action_issues (AcceptSwap request) c).
  - eapply instants_reachable; [|exact Hw|exact Hin]. intros c Hc.
    exact (Hc : action_issues (RejectSwap request) c).
Qed.

Lemma last_elem {X} (l : list X) (d : X) : l ≠ [] → List.last l d ∈ l.
Proof.
  induction l as [|x [|y l] IH]; [done| |]; intros _.
  - apply list_elem_of_here.
  - apply list_elem_of_further. by apply IH.
Qed.

Lemma action_instants_nonempty B a w : action_instants B a w ≠ [].
Proof.
  destruct a; unfold action_instants; [done|..];
    match goal with |- instants _ ?p _ ≠ _ => by destruct p end.
Qed.

Lemma session_instants_reachable B s w w' :
  reachable w → w' ∈ session_instants B s w → reachable w'.
Proof.
  revert w. induction s as [|a s IH]; intros w Hw; simpl.
  - by intros ->%list_elem_of_singleton.
  - intros [Hin|Hin]%elem_of_app.
    + by eapply action_instants_reachable.
    + eapply IH; [|exact Hin].
      eapply action_instants_reachable; [exact Hw|].
      apply last_elem, action_instants_nonempty.
Qed.

Lemma session_end_reachable B s w :
  reachable w → reachable (Scenario.session_end B s w).
Proof.
  intros Hw. apply (session_instants_reachable B s w); [done|].
  apply last_elem. destruct s; simpl; [done|].
  intros [Hnil _]%app_eq_nil. by apply action_instants_nonempty in Hnil.
Qed.

Lemma scenario_proposed_reachable : reachable Scenario.proposed.
Proof. do 2 apply session_end_reachable. apply reachable_initial. Qed.

(** The session of the scenario up to the proposal, in one piece. *)
Lemma scenario_proposed_instant :
  Scenario.proposed
    ∈ session_instants Scenario.steady
        [SignIn (Some "A"); CreateEvent (Some "A") Scenario.standup;
         ToggleSwappable "E1" "BUSY";
         SignIn (Some "B"); CreateEvent (Some "B") Scenario.review;
         ToggleSwappable "E2" "BUSY";
         SignIn (Some "A"); Scenario.proposal]
        initial.
Proof.
  replace Scenario.proposed
    with (Scenario.session_end Scenario.steady
            [SignIn (Some "A"); CreateEvent (Some "A") Scenario.standup;
             ToggleSwappable "E1" "BUSY";
             SignIn (Some "B"); CreateEvent (Some "B") Scenario.review;
             ToggleSwappable "E2" "BUSY";
             SignIn (Some "A"); Scenario.proposal]
            initial)
    by (vm_compute; reflexivity).
  apply last_elem. vm_compute. discriminate.
Qed.

(** ** The statuses that are ever written *)

Ltac issues_inv :=
  repeat (cbv beta in *;
          match goal with
          | H : issues (Ret _) _ |- _ => inversion H
          | H : issues (Await _ _) _ |- _ => inversion H; subst; clear H
          | H : issues (if ?b then _ else _) _ |- _ => destruct b
          | H : issues (match ?x with _ => _ end) _ |- _ => destruct x
          end).

Lemma handler_writes_checked a c s :
  action_issues a c → written_status c = Some s →
  s ∈ ["BUSY"; "SWAPPABLE"; "SWAP_PENDING"].
Proof.
  destruct a; simpl; [done|..].
  - unfold Dashboard.handleCreateEvent. intros H. issues_inv.
    simpl. intros [= <-]. set_solver.
  - unfold Dashboard.toggleSwappable. intros H. issues_inv.
    simpl. intros [= <-]. destruct (String.eqb currentStatus "BUSY"); set_solver.
  - unfold Dashboard.deleteEvent. intros H. issues_inv. done.
  - unfold Marketplace.requestSwap. intros H. issues_inv; simpl; try done.
    intros [= <-]. set_solver.
  - unfold Requests.handleAcceptSwap. intros H. issues_inv; simpl; try done;
      intros [= <-]; set_solver.
  - unfold Requests.handleRejectSwap. intros H. issues_inv; simpl; try done.
    intros [= <-]. set_solver.
Qed.

Lemma handler_writes_request_checked a c s :
  action_issues a c → written_request_status c = Some s →
  s ∈ ["PENDING"; "ACCEPTED"; "REJECTED"].
Proof.
  destruct a; simpl; [done|..].
  - unfold Dashboard.handleCreateEvent. intros H. issues_inv. done.
  - unfold Dashboard.toggleSwappable. intros H. issues_inv. done.
  - unfold Dashboard.deleteEvent. intros H. issues_inv. done.
  - unfold Marketplace.requestSwap. intros H. issues_inv; simpl; try done.
    intros [= <-]. set_solver.
  - unfold Requests.handleAcceptSwap. intros H. issues_inv; simpl; try done;
      intros [= <-]; set_solver.
  - unfold Requests.handleRejectSwap. intros H. issues_inv; simpl; try done;
      intros [= <-]; set_solver.
Qed.

(** C8.  At every instant of every session from the empty store, the
    status of every event is BUSY, SWAPPABLE or SWAP_PENDING; and every
    status a handler writes to an event, on whatever arguments, is one
    of the three. *)
Theorem status_is_one_of_three :
  (∀ B s w, w ∈ session_instants B s initial →
     ∀ eventId r, tbl_events (store w) !! eventId = Some r →
       events.status r ∈ ["BUSY"; "SWAPPABLE"; "SWAP_PENDING"])
  ∧ (∀ a c st, action_issues a c → written_status c = Some st →
       st ∈ ["BUSY"; "SWAPPABLE"; "SWAP_PENDING"]).
Proof.
  split.
  - intros B s w Hw. apply (reachable_statuses_checked w).
    eapply session_instants_reachable; [apply reachable_initial | exact Hw].
  - apply handler_writes_checked.
Qed.

(** X12.  At every instant of every session from the empty store, the
    status of every swap request is PENDING, ACCEPTED or REJECTED; and
    every status a handler writes to a request, on whatever arguments,
    is one of the three. *)
Theorem request_status_is_one_of_three :
  (∀ B s w, w ∈ session_instants B s initial →
     ∀ requestId r, tbl_swap_requests (store w) !! requestId = Some r →
       swap_requests.status r ∈ ["PENDING"; "ACCEPTED"; "REJECTED"])
  ∧ (∀ a c st, action_issues a c → written_request_status c = Some st →
       st ∈ ["PENDING"; "ACCEPTED"; "REJECTED"]).
Proof.
  split.
  - intros B s w Hw. apply (reachable_request_statuses_checked w).
    eapply session_instants_reachable; [apply reachable_initial | exact Hw].
  - apply handler_writes_request_checked.
Qed.

(** The status of E1 once listed, and the status a proposal writes. *)
Lemma status_is_one_of_three_witness :
  events.status Scenario.E1 ∈ ["BUSY"; "SWAPPABLE"; "SWAP_PENDING"]
  ∧ "SWAP_PENDING" ∈ ["BUSY"; "SWAPPABLE"; "SWAP_PENDING"].
Proof.
  destruct status_is_one_of_three as [Hstored Hwritten]. split.
  - refine (Hstored Scenario.steady
              [SignIn (Some "A"); CreateEvent (Some "A") Scenario.standup;
               ToggleSwappable "E1" "BUSY";
               SignIn (Some "B"); CreateEvent (Some "B") Scenario.review;
               ToggleSwappable "E2" "BUSY"; SignIn (Some "A")]
              Scenario.listed _ "E1" Scenario.E1 _).
    + apply last_elem. vm_compute. discriminate.
    + vm_compute. reflexivity.
  - refine (Hwritten Scenario.proposal
              (UPDATE_events {| set_user_id := None; set_status := Some "SWAP_PENDING" |}
                             ["E1"; "E2"]) "SWAP_PENDING" _ _).
    + vm_compute. eapply issues_later with (error := false). apply issues_now.
    + reflexivity.
Defined.

(** ** What no handler ever does *)

(** X21.  No call the pages make changes the title, the start or the
    end of an event that is in the store: after the call the event is
    either gone or has the three as before. *)
Theorem events_keep_title_and_times B c w eventId r r' :
  tbl_events (store w) !! eventId = Some r →
  tbl_events (store (rpc B c w).2) !! eventId = Some r' →
  events.title r' = events.title r
  ∧ events.start_time r' = events.start_time r
  ∧ events.end_time r' = events.end_time r.
Proof.
  intros Hr. destruct (rpc B c w) as [[] w1] eqn:E; simpl.
  { apply rpc_failed in E as (-> & _). rewrite Hr. by intros [= <-]. }
  apply rpc_admitted in E as (E & _). revert E.
  destruct c as [v|p ids|id|v|s id].
  - intros (Hfresh & -> & _)%exec_insert_events.
    rewrite lookup_insert_ne by congruence. rewrite Hr. by intros [= <-].
  - intros (_ & Hev & _)%exec_update_events. rewrite Hev, Hr.
    case_decide; simpl; [|by intros [= <-]].
    intros [= <-]. unfold update_event. by destruct (allowed _ _ r).
  - intros [[-> _]|(_ & _ & _ & -> & _)]%exec_delete_events.
    + rewrite Hr. by intros [= <-].
    + rewrite lookup_delete. case_decide; [done|]. rewrite Hr. by intros [= <-].
  - intros (_ & -> & _)%exec_insert_swap_requests. rewrite Hr. by intros [= <-].
  - intros [-> _]%exec_update_swap_requests. rewrite Hr. by intros [= <-].
Qed.

(** X22.  No call of any handler takes a request that is ACCEPTED or
    REJECTED back to PENDING: after the call the request is gone or
    still not PENDING. *)
Theorem resolved_request_never_pending_again B a c w requestId r :
  action_issues a c →
  tbl_swap_requests (store w) !! requestId = Some r →
  swap_requests.status r ≠ "PENDING" →
  request_status (store (rpc B c w).2) requestId ≠ Some "PENDING".
Proof.
  intros Hissues Hr Hresolved. unfold request_status.
  destruct (rpc B c w) as [[] w1] eqn:E; simpl.
  { apply rpc_failed in E as (-> & _). rewrite Hr. simpl. congruence. }
  apply rpc_admitted in E as (E & _). revert E.
  destruct c as [v|p ids|id|v|s id].
  - intros (_ & _ & -> & _)%exec_insert_events. rewrite Hr. simpl. congruence.
  - intros (-> & _)%exec_update_events. rewrite Hr. simpl. congruence.
  - intros [[-> _]|(_ & _ & _ & _ & ->)]%exec_delete_events.
    + rewrite Hr. simpl. congruence.
    + destruct (filter _ _ !! requestId) as [r'|] eqn:Hr'; simpl; [|done].
      apply map_lookup_filter_Some in Hr' as [Hr' _].
      rewrite Hr in Hr'. injection Hr' as <-. congruence.
  - intros (Hfresh & _ & -> & _)%exec_insert_swap_requests.
    rewrite lookup_insert_ne by congruence. rewrite Hr. simpl. congruence.
  - intros [_ ->]%exec_update_swap_requests. rewrite lookup_alter.
    case_decide as Hi; [subst id|]; rewrite Hr; simpl; [|congruence].
    unfold update_request.
    destruct (allowed _ _ r); simpl; [|congruence].
    assert (s ≠ "PENDING") as Hnp; [|congruence].
    clear -Hissues. destruct a; simpl in Hissues; [done|..].
    + unfold Dashboard.handleCreateEvent in Hissues. issues_inv.
    + unfold Dashboard.toggleSwappable in Hissues. issues_inv.
    + unfold Dashboard.deleteEvent in Hissues. issues_inv.
    + unfold Marketplace.requestSwap in Hissues. issues_inv.
    + unfold Requests.handleAcceptSwap in Hissues. issues_inv; discriminate.
    + unfold Requests.handleRejectSwap in Hissues. issues_inv; discriminate.
Qed.

(** The write that locks E1: its title and times are as A entered them. *)
Lemma events_keep_title_and_times_witness :
  events.title Scenario.E1_pending = events.title Scenario.E1
  ∧ events.start_time Scenario.E1_pending = events.start_time Scenario.E1
  ∧ events.end_time Scenario.E1_pending = events.end_time Scenario.E1.
Proof.
  apply (events_keep_title_and_times Scenario.steady
           (UPDATE_events {| set_user_id := None; set_status := Some "SWAP_PENDING" |}
                          ["E1"; "E2"])
           Scenario.listed "E1").
  - vm_compute. reflexivity.
  - vm_compute. reflexivity.
Defined.

(** R once rejected stays resolved under a second Reject. *)
Lemma resolved_request_never_pending_again_witness :
  request_status
    (store (rpc Scenario.steady (UPDATE_swap_requests "REJECTED" "R") Scenario.rejected).2)
    "R" ≠ Some "PENDING".
Proof.
  apply (resolved_request_never_pending_again Scenario.steady (RejectSwap Scenario.card)
           (UPDATE_swap_requests "REJECTED" "R") Scenario.rejected "R"
           (set_request_status "REJECTED" Scenario.R)).
  - apply issues_now.
  - vm_compute. reflexivity.
  - discriminate.
Defined.

(** ** The dashboard: creating, toggling, deleting *)

Lemma events_row_eta (r : events.row) s :
  events.status r = s →
  {| events.user_id := events.user_id r; events.title := events.title r;
     events.start_time := events.start_time r; events.end_time := events.end_time r;
     events.status := s |} = r.
Proof. destruct r; simpl. by intros ->. Qed.

Section dashboard.
Context (B : Backend).

(** A write of a status, one of the three, by the owner of the only row
    it names is admitted unless the backend turns it down. *)
Lemma rpc_update_own_status s eventId r w :
  tbl_events (store w) !! eventId = Some r →
  auth w = Some (events.user_id r) →
  eventId ≠ "" →
  s ∈ ["BUSY"; "SWAPPABLE"; "SWAP_PENDING"] →
  refuses B (List.length (issued w)) = false →
  ∃ w', rpc B (UPDATE_events {| set_user_id := None; set_status := Some s |} [eventId]) w
        = (false, w')
        ∧ tbl_swap_requests (store w') = tbl_swap_requests (store w)
        ∧ tbl_events (store w')
          = <[eventId := patch_event {| set_user_id := None; set_status := Some s |} r]>
              (tbl_events (store w)).
Proof.
  intros Hr Hown Hid Hs Hanswers. unfold rpc. rewrite Hanswers. simpl.
  unfold malformed. rewrite bool_decide_eq_false_2
    by (rewrite list_elem_of_singleton; congruence).
  unfold selected. simpl. rewrite Hr. simpl.
  rewrite (proj2 (allowed_events_update (auth w) r) Hown). simpl.
  unfold events.check. simpl. rewrite bool_decide_eq_true_2 by done. simpl.
  rewrite (proj2 (allowed_events_update (auth w) _)) by done. simpl.
  eexists. split; [reflexivity|]. simpl. split; [done|].
  apply map_eq. intros i. rewrite lookup_alter.
  case_decide as Hi; [subst i|by rewrite lookup_insert_ne].
  rewrite lookup_insert_eq, Hr. simpl. by rewrite update_event_own.
Qed.

(** C6, as the page has it.  Toggle by the owner of an event, on the
    status the dashboard card holds for it.  When that status is
    SWAP_PENDING the handler ends with an error before any call and the
    world is as it was.  Otherwise it asks for SWAPPABLE when the card
    says BUSY and for BUSY when it says anything else, whatever the
    store holds by then: the event gets that status when the backend
    admits the call, and when it turns the call down the handler ends
    with an error and the store is as it was.  So the status flips
    between BUSY and SWAPPABLE when the card is current, and a card
    read before a proposal sets a SWAP_PENDING event to BUSY. *)
Theorem toggle_checks_status_as_read w eventId r currentStatus t w' :
  tbl_events (store w) !! eventId = Some r →
  auth w = Some (events.user_id r) →
  eventId ≠ "" →
  run B (Dashboard.toggleSwappable eventId currentStatus) w = (t, w') →
  (currentStatus = "SWAP_PENDING" →
     t = toast_error "Cannot modify event with pending swap" ∧ w' = w)
  ∧ (currentStatus ≠ "SWAP_PENDING" →
       if refuses B (List.length (issued w))
       then t = toast_error "Failed to update event" ∧ store w' = store w
       else t = toast_success (if String.eqb currentStatus "BUSY"
                               then "Event marked as swappable"
                               else "Event marked as busy")
            ∧ event_status (store w') eventId
              = Some (if String.eqb currentStatus "BUSY" then "SWAPPABLE" else "BUSY")
            ∧ owner (store w') eventId = owner (store w) eventId).
Proof.
  intros Hr Hown Hid Hrun. split.
  { intros ->. simpl in Hrun. by injection Hrun as <- <-. }
  { intros Hs. revert Hrun. unfold Dashboard.toggleSwappable.
    rewrite (proj2 (String.eqb_neq _ _) Hs). simpl.
    destruct (refuses B (List.length (issued w))) eqn:Hrefuses.
    - unfold rpc. rewrite Hrefuses. simpl. by intros [= <- <-].
    - destruct (rpc_update_own_status
                  (if String.eqb currentStatus "BUSY" then "SWAPPABLE" else "BUSY")
                  eventId r w) as (w1 & -> & _ & Hev); try done.
      { destruct (String.eqb currentStatus "BUSY"); set_solver. }
      simpl. intros [= <- <-]. unfold event_status, owner.
      rewrite Hev, lookup_insert_eq, Hr. simpl.
      by destruct (String.eqb currentStatus "BUSY"). }
Qed.

(** C9, as the page has it.  Creating an event stores the submitted
    start and end as they are, in whatever order, under a new
    identifier and as BUSY, for the user signed in; it ends with an
    error, the store as it was, only when the backend turns the insert
    down or draws an identifier that is taken. *)
Theorem create_stores_times_as_given w uid formData t w' :
  auth w = Some uid →
  run B (Dashboard.handleCreateEvent (Some uid) formData) w = (t, w') →
  let n := List.length (issued w) in
  if refuses B n || bool_decide (is_Some (tbl_events (store w) !! gen_random_uuid B n))
  then t = Some (toast_error "Failed to create event") ∧ store w' = store w
  else t = Some (toast_success "Event created!")
       ∧ tbl_swap_requests (store w') = tbl_swap_requests (store w)
       ∧ tbl_events (store w')
         = <[gen_random_uuid B n :=
               {| events.user_id := uid;
                  events.title := Dashboard.form_title formData;
                  events.start_time := Dashboard.form_startTime formData;
                  events.end_time := Dashboard.form_endTime formData;
                  events.status := "BUSY" |}]> (tbl_events (store w)).
Proof.
  intros Hauth. cbn. unfold rpc. destruct (refuses B _); cbn; [by intros [= <- <-]|].
  rewrite Hauth. cbn. unfold policy.events_insert. cbn.
  rewrite (bool_decide_eq_true_2 (uid = uid)) by done.
  case_decide as Hfresh.
  - rewrite bool_decide_eq_false_2 by (rewrite Hfresh; by intros [? [=]]).
    cbn. by intros [= <- <-].
  - rewrite bool_decide_eq_true_2 by (by apply not_eq_None_Some).
    cbn. by intros [= <- <-].
Qed.

Lemma toggleSwappable_success eventId currentStatus w m w' :
  run B (Dashboard.toggleSwappable eventId currentStatus) w = (toast_success m, w') →
  rpc B (UPDATE_events
           {| set_user_id := None;
              set_status := Some (if String.eqb currentStatus "BUSY"
                                  then "SWAPPABLE" else "BUSY") |} [eventId]) w
    = (false, w').
Proof.
  unfold Dashboard.toggleSwappable.
  destruct (String.eqb currentStatus "SWAP_PENDING"); simpl; [done|].
  destruct (rpc B _ w) as [[] w1] eqn:E; simpl; intros [= _ <-]; done.
Qed.

(** X7.  On any arguments, [toggleSwappable] leaves the requests and
    every other event as they were, and of the event it names it can
    change the status only, to BUSY or SWAPPABLE.  When no event has
    that identifier the store is unchanged, whatever the handler
    reports. *)
Theorem toggle_touches_one_status eventId currentStatus w t w' :
  run B (Dashboard.toggleSwappable eventId currentStatus) w = (t, w') →
  tbl_swap_requests (store w') = tbl_swap_requests (store w)
  ∧ (∀ i, i ≠ eventId → tbl_events (store w') !! i = tbl_events (store w) !! i)
  ∧ (∀ r', tbl_events (store w') !! eventId = Some r' →
       ∃ r, tbl_events (store w) !! eventId = Some r
            ∧ events.user_id r' = events.user_id r
            ∧ events.title r' = events.title r
            ∧ events.start_time r' = events.start_time r
            ∧ events.end_time r' = events.end_time r
            ∧ (events.status r' = events.status r
               ∨ events.status r' = "BUSY" ∨ events.status r' = "SWAPPABLE"))
  ∧ (tbl_events (store w) !! eventId = None → store w' = store w).
Proof.
  unfold Dashboard.toggleSwappable.
  destruct (String.eqb currentStatus "SWAP_PENDING"); simpl.
  { intros [= _ <-]. repeat split; eauto 10. }
  destruct (rpc B _ w) as [err w1] eqn:E; simpl.
  assert (w' = w1 → store w' = store w
          ∨ exec (auth w) (gen_random_uuid B (List.length (issued w)))
              (UPDATE_events
                 {| set_user_id := None;
                    set_status := Some (if String.eqb currentStatus "BUSY"
                                        then "SWAPPABLE" else "BUSY") |} [eventId])
              (store w) = Some (store w')) as Hcases.
  { intros ->. destruct err.
    - left. by apply rpc_failed in E as (-> & _).
    - right. by apply rpc_admitted in E as (E & _). }
  intros Hrun. destruct Hcases as [->|(Hreq & Hev & _)%exec_update_events].
  { by destruct err; injection Hrun. }
  { repeat split; eauto 10. }
  split; [done|]. split; [|split].
  - intros i Hi. rewrite Hev.
    rewrite decide_False by (rewrite list_elem_of_singleton; congruence). done.
  - intros r'. rewrite Hev.
    rewrite decide_True by apply list_elem_of_singleton, eq_refl.
    destruct (tbl_events (store w) !! eventId) as [r|]; simpl; [|done].
    intros [= <-]. exists r. unfold update_event.
    destruct (allowed _ _ r); simpl; [|auto 10].
    destruct (String.eqb currentStatus "BUSY"); auto 10.
  - intros Hnone. apply db_eq; [|done]. apply map_eq. intros i. rewrite Hev.
    case_decide as Hi; [|done].
    apply list_elem_of_singleton in Hi as ->. by rewrite Hnone.
Qed.

(** X8.  Two toggles in a row by the owner, each admitted, the second
    on the status the first one left: an event that was BUSY or
    SWAPPABLE is back to what it was, and so is the whole store. *)
Theorem toggle_twice_restores eventId r w m1 w1 m2 w2 :
  tbl_events (store w) !! eventId = Some r →
  auth w = Some (events.user_id r) →
  events.status r = "BUSY" ∨ events.status r = "SWAPPABLE" →
  run B (Dashboard.toggleSwappable eventId (events.status r)) w = (toast_success m1, w1) →
  (∀ s, event_status (store w1) eventId = Some s →
        run B (Dashboard.toggleSwappable eventId s) w1 = (toast_success m2, w2)) →
  event_status (store w1) eventId ≠ event_status (store w) eventId
  ∧ store w2 = store w.
Proof.
  intros Hr Hown Hstatus Hfirst Hsecond.
  apply toggleSwappable_success in Hfirst.
  apply rpc_admitted in Hfirst as ((Hreq1 & Hev1 & _)%exec_update_events & _ & Hauth1).
  assert (tbl_events (store w1) !! eventId
          = Some (patch_event
                    {| set_user_id := None;
                       set_status := Some (if String.eqb (events.status r) "BUSY"
                                           then "SWAPPABLE" else "BUSY") |} r)) as Hr1.
  { rewrite Hev1. rewrite decide_True by apply list_elem_of_singleton, eq_refl.
    rewrite Hr. simpl. by rewrite update_event_own. }
  assert (event_status (store w1) eventId
          = Some (if String.eqb (events.status r) "BUSY" then "SWAPPABLE" else "BUSY"))
    as Hs1.
  { unfold event_status. by rewrite Hr1. }
  specialize (Hsecond _ Hs1). apply toggleSwappable_success in Hsecond.
  apply rpc_admitted in Hsecond as ((Hreq2 & Hev2 & _)%exec_update_events & _).
  split.
  - rewrite Hs1. unfold event_status. rewrite Hr. simpl.
    destruct Hstatus as [->| ->]; simpl; discriminate.
  - apply db_eq; [|congruence]. apply map_eq. intros i. rewrite Hev2.
    case_decide as Hi; [|rewrite Hev1; by rewrite decide_False].
    apply list_elem_of_singleton in Hi as ->. rewrite Hr1, Hr. simpl. f_equal.
    rewrite update_event_own by (by rewrite Hauth1).
    unfold patch_event; simpl. apply events_row_eta.
    destruct Hstatus as [Hs|Hs]; rewrite Hs; reflexivity.
Qed.

Lemma deleteEvent_success eventId w m w' :
  run B (Dashboard.deleteEvent eventId) w = (toast_success m, w') →
  (store w' = store w
   ∧ ∀ r, tbl_events (store w) !! eventId = Some r → auth w ≠ Some (events.user_id r))
  ∨ (tbl_events (store w') = delete eventId (tbl_events (store w))
     ∧ tbl_swap_requests (store w')
       = filter (λ kr, ¬ swap_requests.references eventId kr.2)
                (tbl_swap_requests (store w))).
Proof.
  simpl. destruct (rpc B _ w) as [[] w1] eqn:E; simpl; intros [= _ <-].
  apply rpc_admitted in E as ([[-> ?]|(_ & _ & _ & ? & ?)]%exec_delete_events & _); auto.
Qed.

(** C7, as the schema has it.  Deleting, by its owner, an event that a
    PENDING request names, at any reachable world: the delete is never
    refused on account of the request.  When the backend turns the
    call down the handler ends with an error and the store is as it
    was; otherwise the event is gone and, by the cascade of the foreign
    key, the request is deleted with it rather than resolved to
    REJECTED.  Before and after, no PENDING request names an event
    that is not in the store. *)
Theorem delete_cascades_to_requests w eventId re requestId r t w' :
  reachable w →
  tbl_events (store w) !! eventId = Some re →
  auth w = Some (events.user_id re) →
  eventId ≠ "" →
  tbl_swap_requests (store w) !! requestId = Some r →
  swap_requests.status r = "PENDING" →
  swap_requests.references eventId r →
  run B (Dashboard.deleteEvent eventId) w = (t, w') →
  (if refuses B (List.length (issued w))
   then t = toast_error "Failed to delete event" ∧ store w' = store w
   else t = toast_success "Event deleted"
        ∧ tbl_events (store w') !! eventId = None
        ∧ tbl_swap_requests (store w') !! requestId = None)
  ∧ no_pending_orphan (store w)
  ∧ no_pending_orphan (store w')
  ∧ reachable w'.
Proof.
  intros Hw Hre Hown Hid Hr Hpending Hrefs Hrun.
  assert (w' = (rpc B (DELETE_events eventId) w).2) as Hw'.
  { simpl in Hrun. destruct (rpc B _ w) as [[] w1]; simpl in *; by injection Hrun. }
  assert (reachable w') as Hreach.
  { rewrite Hw'. eapply (reachable_call B (DeleteEvent eventId)); [done|].
    apply issues_now. }
  split; [|by auto using referential_no_pending_orphan, reachable_referential].
  revert Hrun. simpl. unfold rpc.
  destruct (refuses B _); simpl; [by intros [= <- <-]|].
  unfold malformed. rewrite bool_decide_eq_false_2
    by (rewrite list_elem_of_singleton; congruence).
  rewrite Hre, (proj2 (allowed_events_delete (auth w) re) Hown). simpl.
  intros [= <- <-]. simpl. split; [done|]. split.
  - apply lookup_delete_eq.
  - rewrite map_lookup_filter_None_2; [done|]. right.
    intros r' Hr'. rewrite Hr in Hr'. injection Hr' as <-. simpl. tauto.
Qed.

(** X9.  Deleting, by its owner, one event of a pending request
    removes the request and leaves the other event exactly as it was,
    SWAP_PENDING: when that request was the only one naming it, no
    request names it any more, and the dashboard still refuses to
    toggle it. *)
Theorem delete_leaves_other_slot_locked eventId other requestId r re ro w m w' :
  tbl_events (store w) !! eventId = Some re →
  auth w = Some (events.user_id re) →
  tbl_swap_requests (store w) !! requestId = Some r →
  swap_requests.references eventId r →
  swap_requests.references other r →
  other ≠ eventId →
  tbl_events (store w) !! other = Some ro →
  events.status ro = "SWAP_PENDING" →
  (∀ i r', tbl_swap_requests (store w) !! i = Some r' →
           swap_requests.references other r' → i = requestId) →
  run B (Dashboard.deleteEvent eventId) w = (toast_success m, w') →
  tbl_events (store w') !! other = Some ro
  ∧ (∀ i r', tbl_swap_requests (store w') !! i = Some r' →
             ¬ swap_requests.references other r')
  ∧ run B (Dashboard.toggleSwappable other (events.status ro)) w'
    = (toast_error "Cannot modify event with pending swap", w').
Proof.
  intros Hre Hown Hr Hrefs Hother Hne Hro Hlocked Honly
         [[_ Hforeign]|[Hev Hreq]]%deleteEvent_success.
  { by destruct (Hforeign re Hre). }
  split; [|split].
  - rewrite Hev. by rewrite lookup_delete_ne.
  - intros i r'. rewrite Hreq. intros [Hr' Hkept]%map_lookup_filter_Some Hnames.
    simpl in Hkept. specialize (Honly i r' Hr' Hnames). subst i.
    rewrite Hr in Hr'. injection Hr' as <-. done.
  - by rewrite Hlocked.
Qed.

End dashboard.

(** A marks E1 busy again from a current card; B's toggle of E2 while
    the backend is unreachable; a card that says SWAP_PENDING. *)
Lemma toggle_checks_status_as_read_witness :
  (run Scenario.steady (Dashboard.toggleSwappable "E1" "SWAP_PENDING") Scenario.proposed
     = (toast_error "Cannot modify event with pending swap", Scenario.proposed))
  ∧ (event_status (store Scenario.listed) "E1" = Some "SWAPPABLE"
     ∧ event_status
         (store (run Scenario.steady (Dashboard.toggleSwappable "E1" "SWAPPABLE")
                   Scenario.listed).2) "E1" = Some "BUSY"
     ∧ owner
         (store (run Scenario.steady (Dashboard.toggleSwappable "E1" "SWAPPABLE")
                   Scenario.listed).2) "E1" = owner (store Scenario.listed) "E1").
Proof.
  split.
  - destruct (run Scenario.steady (Dashboard.toggleSwappable "E1" "SWAP_PENDING")
                Scenario.proposed) as [t w'] eqn:Hrun.
    destruct (toggle_checks_status_as_read Scenario.steady Scenario.proposed "E1"
                Scenario.E1_pending "SWAP_PENDING" t w') as [Hpending _].
    + vm_compute. reflexivity.
    + reflexivity.
    + discriminate.
    + exact Hrun.
    + destruct (Hpending eq_refl) as [-> ->]. reflexivity.
  - split; [vm_compute; reflexivity|].
    destruct (toggle_checks_status_as_read Scenario.steady Scenario.listed "E1" Scenario.E1
                "SWAPPABLE"
                (run Scenario.steady (Dashboard.toggleSwappable "E1" "SWAPPABLE")
                   Scenario.listed).1
                (run Scenario.steady (Dashboard.toggleSwappable "E1" "SWAPPABLE")
                   Scenario.listed).2)
      as [_ Hwrite].
    + vm_compute. reflexivity.
    + reflexivity.
    + discriminate.
    + apply surjective_pairing.
    + assert ("SWAPPABLE" ≠ "SWAP_PENDING") as Hne by discriminate.
      destruct (Hwrite Hne) as (_ & Hstatus & Howner). split; assumption.
Defined.

(** C6 fails as worded.  E1 is SWAP_PENDING under the pending R.  From
    the card A's dashboard read before the proposal, which says
    SWAPPABLE, the button is enabled and the toggle is carried out: it
    ends with its success notification and E1 is BUSY, with R still
    PENDING on it. *)
Lemma stale_toggle_unlocks_pending :
  DashboardView.Event_of ("E1", Scenario.E1)
    ∈ DashboardView.fetchEvents (store Scenario.listed) "A"
  ∧ event_status (store Scenario.proposed) "E1" = Some "SWAP_PENDING"
  ∧ request_status (store Scenario.proposed) "R" = Some "PENDING"
  ∧ click Scenario.steady
      (DashboardView.toggleButton (DashboardView.Event_of ("E1", Scenario.E1)))
      Scenario.proposed
    = (Some (toast_success "Event marked as busy"), Scenario.unlocked_by_stale_card)
  ∧ event_status (store Scenario.unlocked_by_stale_card) "E1" = Some "BUSY"
  ∧ request_status (store Scenario.unlocked_by_stale_card) "R" = Some "PENDING".
Proof. vm_compute. split; [left|done]. Qed.

(** A creates the first event of the scenario. *)
Lemma create_stores_times_as_given_witness :
  Some (toast_success "Event created!") = Some (toast_success "Event created!")
  ∧ tbl_swap_requests (store (run Scenario.steady
        (Dashboard.handleCreateEvent (Some "A") Scenario.standup)
        (sign_in (Some "A") initial)).2) = ∅
  ∧ tbl_events (store (run Scenario.steady
        (Dashboard.handleCreateEvent (Some "A") Scenario.standup)
        (sign_in (Some "A") initial)).2)
    = <["E1" := {| events.user_id := "A"; events.title := "Standup";
                   events.start_time := 540; events.end_time := 555;
                   events.status := "BUSY" |}]> ∅.
Proof.
  apply (create_stores_times_as_given Scenario.steady (sign_in (Some "A") initial)
           "A" Scenario.standup).
  - reflexivity.
  - vm_compute. reflexivity.
Defined.

(** C9 fails as worded.  A form whose end (840) lies before its start
    (900) is stored as submitted and the handler reports success. *)
Lemma create_accepts_end_before_start :
  ∃ w',
    run Scenario.steady (Dashboard.handleCreateEvent (Some "A") Scenario.backwards)
      (sign_in (Some "A") initial)
      = (Some (toast_success "Event created!"), w')
    ∧ tbl_events (store w') !! "E1"
      = Some {| events.user_id := "A"; events.title := "Backwards";
                events.start_time := 900; events.end_time := 840;
                events.status := "BUSY" |}
    ∧ ¬ (900 < 840)%Z.
Proof. eexists. vm_compute. split; [reflexivity|]. split; [reflexivity|]. discriminate. Qed.

(** B takes E2 back: R-free store, E1 untouched. *)
Lemma toggle_touches_one_status_witness :
  tbl_swap_requests (store (run Scenario.steady (Dashboard.toggleSwappable "E2" "SWAPPABLE")
                              (sign_in (Some "B") Scenario.listed)).2)
    = tbl_swap_requests (store Scenario.listed)
  ∧ tbl_events (store (run Scenario.steady (Dashboard.toggleSwappable "E2" "SWAPPABLE")
                         (sign_in (Some "B") Scenario.listed)).2) !! "E1"
    = tbl_events (store Scenario.listed) !! "E1".
Proof.
  destruct (toggle_touches_one_status Scenario.steady "E2" "SWAPPABLE"
              (sign_in (Some "B") Scenario.listed)
              (run Scenario.steady (Dashboard.toggleSwappable "E2" "SWAPPABLE")
                 (sign_in (Some "B") Scenario.listed)).1
              (run Scenario.steady (Dashboard.toggleSwappable "E2" "SWAPPABLE")
                 (sign_in (Some "B") Scenario.listed)).2)
    as (Hreq & Hothers & _).
  - apply surjective_pairing.
  - split; [exact Hreq|]. apply Hothers. discriminate.
Defined.

(** B takes E2 back and offers it again. *)
Lemma toggle_twice_restores_witness :
  event_status
    (store (run Scenario.steady (Dashboard.toggleSwappable "E2" "SWAPPABLE")
              (sign_in (Some "B") Scenario.listed)).2) "E2"
    ≠ event_status (store (sign_in (Some "B") Scenario.listed)) "E2"
  ∧ store (run Scenario.steady (Dashboard.toggleSwappable "E2" "BUSY")
             (run Scenario.steady (Dashboard.toggleSwappable "E2" "SWAPPABLE")
                (sign_in (Some "B") Scenario.listed)).2).2
    = store (sign_in (Some "B") Scenario.listed).
Proof.
  apply (toggle_twice_restores Scenario.steady "E2" Scenario.E2
           (sign_in (Some "B") Scenario.listed) "Event marked as busy" _
           "Event marked as swappable").
  - vm_compute. reflexivity.
  - reflexivity.
  - right. reflexivity.
  - vm_compute. reflexivity.
  - intros s Hs. vm_compute in Hs. injection Hs as <-. vm_compute. reflexivity.
Defined.

(** C7 fails as worded.  A deletes E1 while R is pending on it: the
    delete is not refused, and R is not resolved to a terminal status,
    it is no longer in the store. *)
Lemma delete_removes_pending_request :
  tbl_swap_requests (store Scenario.proposed) !! "R" = Some Scenario.R
  ∧ swap_requests.status Scenario.R = "PENDING"
  ∧ swap_requests.references "E1" Scenario.R
  ∧ run Scenario.steady (Dashboard.deleteEvent "E1") Scenario.proposed
    = (toast_success "Event deleted", Scenario.deleted)
  ∧ tbl_swap_requests (store Scenario.deleted) = ∅
  ∧ request_status (store Scenario.deleted) "R" ≠ Some "REJECTED".
Proof.
  split; [vm_compute; reflexivity|]. split; [reflexivity|]. split; [by left|].
  vm_compute. split; [reflexivity|]. split; [reflexivity|]. discriminate.
Qed.

(** A deletes E1 while R is pending on it: R goes with it. *)
Lemma delete_cascades_to_requests_witness :
  (toast_success "Event deleted" = toast_success "Event deleted"
   ∧ tbl_events (store Scenario.deleted) !! "E1" = None
   ∧ tbl_swap_requests (store Scenario.deleted) !! "R" = None)
  ∧ no_pending_orphan (store Scenario.proposed)
  ∧ no_pending_orphan (store Scenario.deleted)
  ∧ reachable Scenario.deleted.
Proof.
  apply (delete_cascades_to_requests Scenario.steady Scenario.proposed "E1"
           Scenario.E1_pending "R" Scenario.R).
  - exact scenario_proposed_reachable.
  - vm_compute. reflexivity.
  - reflexivity.
  - discriminate.
  - vm_compute. reflexivity.
  - reflexivity.
  - left. reflexivity.
  - vm_compute. reflexivity.
Defined.

(** B deletes E2 while R is pending: E1 stays locked with no request. *)
Lemma delete_leaves_other_slot_locked_witness :
  tbl_events (store (run Scenario.steady (Dashboard.deleteEvent "E2") Scenario.inbox).2)
    !! "E1" = Some Scenario.E1_pending
  ∧ (∀ i r',
       tbl_swap_requests
         (store (run Scenario.steady (Dashboard.deleteEvent "E2") Scenario.inbox).2) !! i
       = Some r' →
       ¬ swap_requests.references "E1" r')
  ∧ run Scenario.steady (Dashboard.toggleSwappable "E1" "SWAP_PENDING")
      (run Scenario.steady (Dashboard.deleteEvent "E2") Scenario.inbox).2
    = (toast_error "Cannot modify event with pending swap",
       (run Scenario.steady (Dashboard.deleteEvent "E2") Scenario.inbox).2).
Proof.
  apply (delete_leaves_other_slot_locked Scenario.steady "E2" "E1" "R" Scenario.R
           Scenario.E2 Scenario.E1_pending Scenario.inbox "Event deleted").
  - vm_compute. reflexivity.
  - reflexivity.
  - vm_compute. reflexivity.
  - right. reflexivity.
  - left. reflexivity.
  - discriminate.
  - vm_compute. reflexivity.
  - reflexivity.
  - intros i r' Hr' _. destruct (decide (i = "R")) as [|Hne]; [done|].
    exfalso. revert Hr'.
    replace (tbl_swap_requests (store Scenario.inbox))
      with (<["R" := Scenario.R]> (∅ : gmap string swap_requests.row))
      by (vm_compute; reflexivity).
    rewrite lookup_insert_ne by done. by rewrite lookup_empty.
  - vm_compute. reflexivity.
Defined.

(** * The reading and rendering side of the pages *)

(** ** What the marketplace lists *)

Lemma filter_keys_NoDup {V} (P : string * V → Prop) `{∀ x, Decision (P x)}
    (m : gmap string V) :
  NoDup ((filter P (map_to_list m)).*1).
Proof.
  apply (sublist_NoDup _ ((map_to_list m).*1)); [apply NoDup_fst_map_to_list|].
  apply fmap_sublist, sublist_filter.
Qed.

#[export] Instance marketplace_by_start_time_total : Total Marketplace.by_start_time.
Proof. intros a b. unfold Marketplace.by_start_time. lia. Qed.

#[export] Instance marketplace_by_start_time_trans : Transitive Marketplace.by_start_time.
Proof. intros a b c. unfold Marketplace.by_start_time. lia. Qed.

(** X1.  The marketplace of a user lists exactly the SWAPPABLE events
    of the store that other users own, each as the store holds it and
    each once, from the earliest start to the latest; the user's own
    events are never among them. *)
Theorem marketplace_lists_others_swappable db user :
  (∀ slot, slot ∈ Marketplace.fetchSwappableSlots db user →
     Marketplace.user_id slot ≠ user
     ∧ Marketplace.status slot = "SWAPPABLE"
     ∧ ∃ r, tbl_events db !! Marketplace.id slot = Some r
            ∧ slot = Marketplace.Event_of (Marketplace.id slot, r))
  ∧ (∀ eventId r,
       tbl_events db !! eventId = Some r →
       events.status r = "SWAPPABLE" → events.user_id r ≠ user →
       Marketplace.Event_of (eventId, r) ∈ Marketplace.fetchSwappableSlots db user)
  ∧ NoDup (Marketplace.id <$> Marketplace.fetchSwappableSlots db user)
  ∧ StronglySorted Marketplace.by_start_time (Marketplace.fetchSwappableSlots db user).
Proof.
  split; [|split; [|split]].
  - intros slot (r & Hr & Hslot & Hs & Hu)%fetchSwappableSlots_elem.
    split; [|split; [|eauto]]; rewrite Hslot; done.
  - intros eventId r Hr Hs Hu. apply fetchSwappableSlots_elem.
    exists r. simpl. done.
  - unfold Marketplace.fetchSwappableSlots.
    rewrite merge_sort_Permutation, <- list_fmap_compose.
    apply filter_keys_NoDup.
  - apply StronglySorted_merge_sort; apply _.
Qed.

(** X2.  A SWAPPABLE event of the store is in exactly one of the two
    lists a user's marketplace holds: among the user's own offers when
    the user owns it, among the slots on offer otherwise.  No event is
    in both, and an event that is not SWAPPABLE is in neither. *)
Theorem swappable_event_in_one_list db user eventId r :
  tbl_events db !! eventId = Some r →
  (Marketplace.Event_of (eventId, r) ∈ Marketplace.fetchMySwappableSlots db user
   ↔ events.status r = "SWAPPABLE" ∧ events.user_id r = user)
  ∧ (Marketplace.Event_of (eventId, r) ∈ Marketplace.fetchSwappableSlots db user
     ↔ events.status r = "SWAPPABLE" ∧ events.user_id r ≠ user)
  ∧ ∀ slot, slot ∈ Marketplace.fetchMySwappableSlots db user →
            slot ∉ Marketplace.fetchSwappableSlots db user.
Proof.
  intros Hr. split; [|split].
  - rewrite fetchMySwappableSlots_elem. simpl. split.
    + intros (r' & Hr' & _ & Hu & Hs). rewrite Hr in Hr'. by injection Hr' as <-.
    + intros [Hs Hu]. eauto.
  - rewrite fetchSwappableSlots_elem. simpl. split.
    + intros (r' & Hr' & _ & Hs & Hu). rewrite Hr in Hr'. by injection Hr' as <-.
    + intros [Hs Hu]. eauto.
  - intros slot (r1 & Hr1 & _ & Hu1 & _)%fetchMySwappableSlots_elem
                (r2 & Hr2 & _ & _ & Hu2)%fetchSwappableSlots_elem.
    rewrite Hr1 in Hr2. injection Hr2 as <-. done.
Qed.

(** After the two users have listed their slots, E1 is A's own offer
    and E2 is on offer to A. *)
Lemma swappable_event_in_one_list_witness :
  (Marketplace.Event_of ("E1", Scenario.E1)
     ∈ Marketplace.fetchMySwappableSlots (store Scenario.listed) "A"
   ↔ events.status Scenario.E1 = "SWAPPABLE" ∧ events.user_id Scenario.E1 = "A")
  ∧ (Marketplace.Event_of ("E1", Scenario.E1)
       ∈ Marketplace.fetchSwappableSlots (store Scenario.listed) "A"
     ↔ events.status Scenario.E1 = "SWAPPABLE" ∧ events.user_id Scenario.E1 ≠ "A")
  ∧ ∀ slot, slot ∈ Marketplace.fetchMySwappableSlots (store Scenario.listed) "A" →
            slot ∉ Marketplace.fetchSwappableSlots (store Scenario.listed) "A".
Proof.
  apply (swappable_event_in_one_list (store Scenario.listed) "A" "E1" Scenario.E1).
  vm_compute. reflexivity.
Defined.

(** ** The badges *)

Lemma dashboard_badge_iff s :
  is_Some (DashboardView.getStatusBadge s) ↔ s ∈ ["BUSY"; "SWAPPABLE"; "SWAP_PENDING"].
Proof.
  unfold DashboardView.getStatusBadge.
  destruct (String.eqb_spec s "BUSY") as [->|H1]; [split; [set_solver|eauto]|].
  destruct (String.eqb_spec s "SWAPPABLE") as [->|H2]; [split; [set_solver|eauto]|].
  destruct (String.eqb_spec s "SWAP_PENDING") as [->|H3]; [split; [set_solver|eauto]|].
  split; [by intros [? ?]|].
  rewrite !elem_of_cons, elem_of_nil. tauto.
Qed.

Lemma requests_badge_iff s :
  is_Some (RequestsView.getStatusBadge s) ↔ s ∈ ["PENDING"; "ACCEPTED"; "REJECTED"].
Proof.
  unfold RequestsView.getStatusBadge.
  destruct (String.eqb_spec s "PENDING") as [->|H1]; [split; [set_solver|eauto]|].
  destruct (String.eqb_spec s "ACCEPTED") as [->|H2]; [split; [set_solver|eauto]|].
  destruct (String.eqb_spec s "REJECTED") as [->|H3]; [split; [set_solver|eauto]|].
  split; [by intros [? ?]|].
  rewrite !elem_of_cons, elem_of_nil. tauto.
Qed.

(** X13.  At every instant of every session from the empty store,
    [getStatusBadge] of the dashboard renders a badge for every stored
    event and [getStatusBadge] of the inbox for every stored request:
    the [default] case, which renders nothing, is never taken.  Two
    different statuses never get the same badge. *)
Theorem every_status_has_its_badge B s w :
  w ∈ session_instants B s initial →
  (∀ eventId r, tbl_events (store w) !! eventId = Some r →
     is_Some (DashboardView.getStatusBadge (events.status r)))
  ∧ (∀ requestId r, tbl_swap_requests (store w) !! requestId = Some r →
       is_Some (RequestsView.getStatusBadge (swap_requests.status r)))
  ∧ (∀ s1 s2 badge, DashboardView.getStatusBadge s1 = Some badge →
       DashboardView.getStatusBadge s2 = Some badge → s1 = s2)
  ∧ (∀ s1 s2 badge, RequestsView.getStatusBadge s1 = Some badge →
       RequestsView.getStatusBadge s2 = Some badge → s1 = s2).
Proof.
  intros Hw.
  assert (reachable w) as Hreach
    by (eapply session_instants_reachable; [apply reachable_initial | exact Hw]).
  split; [|split; [|split]].
  - intros eventId r Hr. apply dashboard_badge_iff.
    by apply (reachable_statuses_checked w Hreach eventId r).
  - intros requestId r Hr. apply requests_badge_iff.
    by apply (reachable_request_statuses_checked w Hreach requestId r).
  - intros s1 s2 badge. unfold DashboardView.getStatusBadge.
    destruct (String.eqb_spec s1 "BUSY"), (String.eqb_spec s1 "SWAPPABLE"),
      (String.eqb_spec s1 "SWAP_PENDING"), (String.eqb_spec s2 "BUSY"),
      (String.eqb_spec s2 "SWAPPABLE"), (String.eqb_spec s2 "SWAP_PENDING");
      intros Hb1 Hb2; congruence.
  - intros s1 s2 badge. unfold RequestsView.getStatusBadge.
    destruct (String.eqb_spec s1 "PENDING"), (String.eqb_spec s1 "ACCEPTED"),
      (String.eqb_spec s1 "REJECTED"), (String.eqb_spec s2 "PENDING"),
      (String.eqb_spec s2 "ACCEPTED"), (String.eqb_spec s2 "REJECTED");
      intros Hb1 Hb2; congruence.
Qed.

(** E1 while R is pending, and R itself, have their badges. *)
Lemma every_status_has_its_badge_witness :
  is_Some (DashboardView.getStatusBadge "SWAP_PENDING")
  ∧ is_Some (RequestsView.getStatusBadge "PENDING").
Proof.
  destruct (every_status_has_its_badge Scenario.steady _ Scenario.proposed
              scenario_proposed_instant) as (Hevents & Hrequests & _).
  split.
  - apply (Hevents "E1" Scenario.E1_pending). vm_compute. reflexivity.
  - apply (Hrequests "R" Scenario.R). vm_compute. reflexivity.
Defined.

(** ** What the dashboard lists, and what its button says *)

#[export] Instance dashboard_by_start_time_total : Total DashboardView.by_start_time.
Proof. intros a b. unfold DashboardView.by_start_time. lia. Qed.

#[export] Instance dashboard_by_start_time_trans : Transitive DashboardView.by_start_time.
Proof. intros a b c. unfold DashboardView.by_start_time. lia. Qed.

Lemma fetchEvents_elem db user card :
  card ∈ DashboardView.fetchEvents db user ↔
  ∃ r, tbl_events db !! DashboardView.id card = Some r
       ∧ card = DashboardView.Event_of (DashboardView.id card, r)
       ∧ events.user_id r = user.
Proof.
  unfold DashboardView.fetchEvents.
  rewrite merge_sort_Permutation, list_elem_of_fmap. split.
  - intros ([i r] & -> & [Hu Hin%elem_of_map_to_list]%list_elem_of_filter).
    simpl in *. eauto.
  - intros (r & Hr & Hcard & Hu). exists (DashboardView.id card, r).
    split; [done|]. apply list_elem_of_filter. split; [done|].
    by apply elem_of_map_to_list.
Qed.

(** X14.  The dashboard of a user lists exactly the events of the store
    that the user owns, whatever their status, each as the store holds
    it and each once, from the earliest start to the latest. *)
Theorem dashboard_lists_own_events db user :
  (∀ card, card ∈ DashboardView.fetchEvents db user →
     ∃ r, tbl_events db !! DashboardView.id card = Some r
          ∧ events.user_id r = user
          ∧ card = DashboardView.Event_of (DashboardView.id card, r))
  ∧ (∀ eventId r,
       tbl_events db !! eventId = Some r → events.user_id r = user →
       DashboardView.Event_of (eventId, r) ∈ DashboardView.fetchEvents db user)
  ∧ NoDup (DashboardView.id <$> DashboardView.fetchEvents db user)
  ∧ StronglySorted DashboardView.by_start_time (DashboardView.fetchEvents db user).
Proof.
  split; [|split; [|split]].
  - intros card (r & Hr & Hcard & Hu)%fetchEvents_elem. eauto.
  - intros eventId r Hr Hu. apply fetchEvents_elem. exists r. simpl. done.
  - unfold DashboardView.fetchEvents.
    rewrite merge_sort_Permutation, <- list_fmap_compose.
    apply filter_keys_NoDup.
  - apply StronglySorted_merge_sort; apply _.
Qed.

Section dashboard_button.
Context (B : Backend).

(** X15.  On a card the dashboard of the signed-in user has just read
    from a store that satisfies the CHECK constraint, the toggle button
    is disabled exactly when the event is SWAP_PENDING, and an enabled
    button does what its text says: after a click that ends with the
    success notification the event is BUSY under "Mark Busy" and
    SWAPPABLE under "Make Swappable". *)
Theorem toggle_button_keeps_its_word w user card :
  auth w = Some user →
  statuses_checked (store w) →
  card ∈ DashboardView.fetchEvents (store w) user →
  (DashboardView.toggleButton card = None ↔ DashboardView.status card = "SWAP_PENDING")
  ∧ ∀ m w',
      click B (DashboardView.toggleButton card) w = (Some (toast_success m), w') →
      event_status (store w') (DashboardView.id card)
      = Some (if String.eqb (DashboardView.toggleText card) "Mark Busy"
              then "BUSY" else "SWAPPABLE").
Proof.
  intros Hauth Hchecked (r & Hr & Hcard & Hu)%fetchEvents_elem.
  pose proof (Hchecked _ _ Hr) as Hstatus.
  assert (DashboardView.status card = events.status r) as Hs by (by rewrite Hcard).
  unfold DashboardView.toggleButton, DashboardView.toggleText. rewrite Hs.
  split.
  - destruct (String.eqb_spec (events.status r) "SWAP_PENDING"); split; done.
  - intros m w' Hclick.
    apply click_rendered in Hclick as (h & Hbutton & Hrun).
    destruct (String.eqb_spec (events.status r) "SWAP_PENDING") as [|Hnp]; [done|].
    injection Hbutton as <-.
    apply toggleSwappable_success in Hrun.
    apply rpc_admitted in Hrun as ((_ & Hev & _)%exec_update_events & _).
    unfold event_status. rewrite Hev.
    rewrite decide_True by apply list_elem_of_singleton, eq_refl.
    rewrite Hr. simpl. rewrite update_event_own by (by rewrite Hu).
    rewrite !elem_of_cons, elem_of_nil in Hstatus.
    destruct Hstatus as [Hst|[Hst|[Hst|[]]]]; rewrite Hst in *; done.
Qed.

End dashboard_button.

(** B's card of E2 once listed: "Mark Busy", and BUSY after the click. *)
Lemma toggle_button_keeps_its_word_witness :
  (DashboardView.toggleButton (DashboardView.Event_of ("E2", Scenario.E2)) = None
   ↔ DashboardView.status (DashboardView.Event_of ("E2", Scenario.E2)) = "SWAP_PENDING")
  ∧ ∀ m w',
      click Scenario.steady
        (DashboardView.toggleButton (DashboardView.Event_of ("E2", Scenario.E2)))
        (sign_in (Some "B") Scenario.listed) = (Some (toast_success m), w') →
      event_status (store w') "E2" = Some "BUSY".
Proof.
  apply (toggle_button_keeps_its_word Scenario.steady (sign_in (Some "B") Scenario.listed)
           "B" (DashboardView.Event_of ("E2", Scenario.E2))).
  - reflexivity.
  - apply (bool_decide_unpack _). vm_compute. exact I.
  - vm_compute. left.
Defined.

(** ** The queries and writes of the pages against the row policies *)

(** X16.  No page asks to read an event its user's SELECT policies do
    not cover: every card of the dashboard is an own event, every slot
    on offer in the marketplace is a SWAPPABLE event (and never an own
    one), and every own offer is both. *)
Theorem page_queries_within_select_policies db user :
  (∀ card, card ∈ DashboardView.fetchEvents db user →
     ∃ r, tbl_events db !! DashboardView.id card = Some r
          ∧ policy.events_select_own user r = true)
  ∧ (∀ slot, slot ∈ Marketplace.fetchSwappableSlots db user →
       ∃ r, tbl_events db !! Marketplace.id slot = Some r
            ∧ policy.events_select_swappable user r = true
            ∧ policy.events_select_own user r = false)
  ∧ (∀ slot, slot ∈ Marketplace.fetchMySwappableSlots db user →
       ∃ r, tbl_events db !! Marketplace.id slot = Some r
            ∧ policy.events_select_swappable user r = true
            ∧ policy.events_select_own user r = true).
Proof.
  unfold policy.events_select_own, policy.events_select_swappable.
  split; [|split].
  - intros card (r & Hr & _ & Hu)%fetchEvents_elem. exists r.
    split; [done|]. by apply bool_decide_eq_true_2.
  - intros slot (r & Hr & _ & Hs & Hu)%fetchSwappableSlots_elem. exists r.
    split; [done|]. split; [by apply bool_decide_eq_true_2|].
    apply bool_decide_eq_false_2. congruence.
  - intros slot (r & Hr & _ & Hu & Hs)%fetchMySwappableSlots_elem. exists r.
    split; [done|]. split; by apply bool_decide_eq_true_2.
Qed.

(** ** The navigation bar *)

(** X20.  Signed out, the bar shows the brand link to the dashboard
    and nothing else.  Signed in, it shows the brand link and the three
    page buttons, at most one of them highlighted ([default]), and one
    is highlighted exactly when the page is one of the three. *)
Theorem navbar_highlights_at_most_one pathname :
  Navbar.links None pathname = [("/", None)]
  ∧ ∀ uid,
      (Navbar.links (Some uid) pathname).*1 = ["/"; "/"; "/marketplace"; "/requests"]
      ∧ (List.length (filter (λ l, l.2 = Some "default")
                        (Navbar.links (Some uid) pathname)) ≤ 1)%nat
      ∧ ((Some "default" ∈ (Navbar.links (Some uid) pathname).*2)
         ↔ pathname ∈ ["/"; "/marketplace"; "/requests"]).
Proof.
  split; [done|]. intros uid. split; [done|].
  unfold Navbar.links, Navbar.linkVariant, Navbar.isActive.
  destruct (String.eqb_spec pathname "/") as [->|H1];
    [vm_compute; split; [lia|]; split; intros _; [set_solver | right; left]|].
  destruct (String.eqb_spec pathname "/marketplace") as [->|H2];
    [vm_compute; split; [lia|]; split; intros _; [set_solver | right; right; left]|].
  destruct (String.eqb_spec pathname "/requests") as [->|H3];
    [vm_compute; split; [lia|]; split; intros _; [set_solver | right; right; right; left]|].
  split; [vm_compute; lia|]. simpl.
  rewrite !elem_of_cons, !elem_of_nil. split; [|tauto].
  intros [H|[H|[H|[H|[]]]]]; discriminate.
Qed.

(** ** A new event, on the pages *)

Section after_create.
Context (B : Backend).

(** X23.  After [handleCreateEvent] has ended with its success
    notification, the new event is on its creator's dashboard with the
    title and times of the form and the badge "Busy", its button reads
    "Make Swappable" and is enabled, and it is on offer in nobody's
    marketplace. *)
Theorem created_event_is_on_dashboard w uid formData w' :
  run B (Dashboard.handleCreateEvent (Some uid) formData) w
    = (Some (toast_success "Event created!"), w') →
  ∃ card,
    card ∈ DashboardView.fetchEvents (store w') uid
    ∧ tbl_events (store w) !! DashboardView.id card = None
    ∧ DashboardView.title card = Dashboard.form_title formData
    ∧ DashboardView.start_time card = Dashboard.form_startTime formData
    ∧ DashboardView.end_time card = Dashboard.form_endTime formData
    ∧ DashboardView.getStatusBadge (DashboardView.status card)
      = Some {| variant := "default"; label := "Busy" |}
    ∧ DashboardView.toggleText card = "Make Swappable"
    ∧ is_Some (DashboardView.toggleButton card)
    ∧ ∀ user slot, slot ∈ Marketplace.fetchSwappableSlots (store w') user →
                   Marketplace.id slot ≠ DashboardView.id card.
Proof.
  simpl. destruct (rpc B _ w) as [[] w1] eqn:E; simpl; intros [= <-].
  apply rpc_admitted in E as [(Hfresh & Hev & _)%exec_insert_events _].
  eexists (DashboardView.Event_of (gen_random_uuid B (List.length (issued w)), _)).
  split; [|split; [exact Hfresh|]].
  - apply fetchEvents_elem. eexists. simpl. rewrite Hev, lookup_insert_eq. done.
  - simpl. repeat split; try done.
    intros user slot (rs & Hrs & _ & Hs & _)%fetchSwappableSlots_elem Hid.
    rewrite Hid, Hev, lookup_insert_eq in Hrs. injection Hrs as <-. done.
Qed.

End after_create.

(** A's first event, just created. *)
Lemma created_event_is_on_dashboard_witness :
  ∃ card,
    card ∈ DashboardView.fetchEvents
             (store (run Scenario.steady
                       (Dashboard.handleCreateEvent (Some "A") Scenario.standup)
                       (sign_in (Some "A") initial)).2) "A"
    ∧ tbl_events (store (sign_in (Some "A") initial)) !! DashboardView.id card = None
    ∧ DashboardView.title card = "Standup"
    ∧ DashboardView.start_time card = 540%Z
    ∧ DashboardView.end_time card = 555%Z
    ∧ DashboardView.getStatusBadge (DashboardView.status card)
      = Some {| variant := "default"; label := "Busy" |}
    ∧ DashboardView.toggleText card = "Make Swappable"
    ∧ is_Some (DashboardView.toggleButton card)
    ∧ ∀ user slot,
        slot ∈ Marketplace.fetchSwappableSlots
                 (store (run Scenario.steady
                           (Dashboard.handleCreateEvent (Some "A") Scenario.standup)
                           (sign_in (Some "A") initial)).2) user →
        Marketplace.id slot ≠ DashboardView.id card.
Proof.
  apply (created_event_is_on_dashboard Scenario.steady (sign_in (Some "A") initial)
           "A" Scenario.standup).
  vm_compute. reflexivity.
Defined.

(** ** The cards of the inbox *)

Section inbox_cards.
Context (B : Backend).

(** X24.  After a proposal between two different users that ended with
    its success notification, the card of the new request in the
    recipient's inbox does not name the requester's event: the event is
    SWAP_PENDING and not the recipient's, the lookup of the inbox does
    not return it, and the card carries the placeholder with the empty
    identifier and no times, so that it cannot be rendered.  The
    recipient's own event is on the card under its identifier. *)
Theorem inbox_card_hides_requesters_event w a b ra rb m w' :
  tbl_events (store w) !! a = Some ra →
  tbl_events (store w) !! b = Some rb →
  events.user_id ra ≠ events.user_id rb →
  run B (Marketplace.requestSwap (Some (events.user_id ra))
           (Some (Marketplace.Event_of (b, rb))) a) w
    = (Some (toast_success m), w') →
  ∃ requestId r,
    tbl_swap_requests (store w) !! requestId = None
    ∧ tbl_swap_requests (store w') !! requestId = Some r
    ∧ swap_requests.recipient_id r = events.user_id rb
    ∧ Requests.requester_event (Requests.enrich (store w') requestId r)
      = Requests.placeholder
    ∧ Requests.event_id (Requests.recipient_event (Requests.enrich (store w') requestId r))
      = b
    ∧ Requests.renders (Requests.enrich (store w') requestId r) = false.
Proof.
  intros Ha Hb Howners (Hauth & Hfresh & Hreq & Hev)%requestSwap_rows. simpl in Hev.
  exists (gen_random_uuid B (List.length (issued w))),
         (proposal_row (events.user_id ra) (Marketplace.Event_of (b, rb)) a).
  assert (Requests.find_event (store w') (events.user_id rb) a = Requests.placeholder)
    as Hhidden.
  { eapply find_event_hidden.
    - rewrite Hev. rewrite decide_True by left. rewrite Ha. simpl.
      by rewrite update_event_own.
    - done.
    - done. }
  split; [done|]. split; [by rewrite Hreq, lookup_insert_eq|]. split; [done|].
  simpl. rewrite Hhidden. split; [done|]. split.
  - erewrite find_event_visible; [done| |].
    + rewrite Hev. rewrite decide_True by (right; left). rewrite Hb. simpl.
      rewrite update_event_foreign; [done|congruence].
    + unfold Requests.visible, policy.events_select_own.
      by rewrite bool_decide_eq_true_2.
  - unfold Requests.renders. simpl. rewrite Hhidden. reflexivity.
Qed.

End inbox_cards.

(** The card of R in B's inbox after A's proposal. *)
Lemma inbox_card_hides_requesters_event_witness :
  ∃ requestId r,
    tbl_swap_requests (store Scenario.listed) !! requestId = None
    ∧ tbl_swap_requests (store Scenario.proposed) !! requestId = Some r
    ∧ swap_requests.recipient_id r = "B"
    ∧ Requests.requester_event (Requests.enrich (store Scenario.proposed) requestId r)
      = Requests.placeholder
    ∧ Requests.event_id
        (Requests.recipient_event (Requests.enrich (store Scenario.proposed) requestId r))
      = "E2"
    ∧ Requests.renders (Requests.enrich (store Scenario.proposed) requestId r) = false.
Proof.
  apply (inbox_card_hides_requesters_event Scenario.steady Scenario.listed "E1" "E2"
           Scenario.E1 Scenario.E2 "Swap request sent!" Scenario.proposed).
  - vm_compute. reflexivity.
  - vm_compute. reflexivity.
  - vm_compute. discriminate.
  - vm_compute. reflexivity.
Defined.

(** ** What the row policies rule out *)

(** X25.  No call, made by whatever user and answered in whatever way,
    changes the owner of an event that is in the store: after the call
    the event is either gone or has the owner it had.  The two owner
    writes of [handleAcceptSwap] are no exception. *)
Theorem owner_never_changes B c w eventId r r' :
  tbl_events (store w) !! eventId = Some r →
  tbl_events (store (rpc B c w).2) !! eventId = Some r' →
  events.user_id r' = events.user_id r.
Proof.
  intros Hr. destruct (rpc B c w) as [[] w1] eqn:E; simpl.
  { apply rpc_failed in E as (-> & _). rewrite Hr. by intros [= <-]. }
  apply rpc_admitted in E as (E & _). revert E.
  destruct c as [v|p ids|id|v|s id].
  - intros (Hfresh & -> & _)%exec_insert_events.
    rewrite lookup_insert_ne by congruence. rewrite Hr. by intros [= <-].
  - intros E. destruct (exec_keeps_owner _ _ _ _ _ _ eventId r E Hr) as (r1 & Hr1 & Hu).
    rewrite Hr1. by intros [= <-].
  - intros [[-> _]|(_ & _ & _ & -> & _)]%exec_delete_events.
    + rewrite Hr. by intros [= <-].
    + rewrite lookup_delete. case_decide; [done|]. rewrite Hr. by intros [= <-].
  - intros (_ & -> & _)%exec_insert_swap_requests. rewrite Hr. by intros [= <-].
  - intros [-> _]%exec_update_swap_requests. rewrite Hr. by intros [= <-].
Qed.

(** X26.  Whatever sequence of calls a handler makes, whatever its
    arguments and whatever the backend answers, an event that belongs
    to another user than the one signed in is, at the end, the row it
    was: its status included. *)
Theorem handlers_leave_others_events B {A} (handler : prog A) w eventId r :
  tbl_events (store w) !! eventId = Some r →
  auth w ≠ Some (events.user_id r) →
  tbl_events (store (run B handler w).2) !! eventId = Some r.
Proof.
  revert w. induction handler as [a|c k IH]; intros w Hr Hforeign; simpl; [done|].
  pose proof (rpc_keeps_foreign_events B c w eventId r Hr Hforeign) as Hr1.
  pose proof (rpc_auth B c w) as Hauth.
  destruct (rpc B c w) as [error w1]. simpl in *.
  apply IH; [done|]. by rewrite Hauth.
Qed.

(** The write that locks E1 leaves it with A. *)
Lemma owner_never_changes_witness :
  events.user_id Scenario.E1_pending = events.user_id Scenario.E1.
Proof.
  apply (owner_never_changes Scenario.steady
           (UPDATE_events {| set_user_id := None; set_status := Some "SWAP_PENDING" |}
                          ["E1"; "E2"])
           Scenario.listed "E1").
  - vm_compute. reflexivity.
  - vm_compute. reflexivity.
Defined.

(** B's Reject from a card that names E1 leaves E1 SWAP_PENDING. *)
Lemma handlers_leave_others_events_witness :
  tbl_events
    (store (run Scenario.steady
              (Requests.handleRejectSwap Scenario.early_card)
              Scenario.inbox).2) !! "E1"
  = Some Scenario.E1_pending.
Proof.
  apply (handlers_leave_others_events Scenario.steady
           (Requests.handleRejectSwap Scenario.early_card)
           Scenario.inbox "E1" Scenario.E1_pending).
  - vm_compute. reflexivity.
  - vm_compute. discriminate.
Defined.
